(** * The disk abstraction layer of ninja: [src/disk_interface.cc]

    A shallow embedding of [DirName], [DiskInterface::MakeDirs] and the
    [RealDiskInterface] methods, followed by the properties of the
    specification that were checked against them.

    Conventions.
    - A [std::string] is a [string]; [string::npos] is [None] in an
      [option nat] position.
    - [TimeStamp] and every C [int] that the code only compares are [Z];
      [size_t] values are [nat] (positions) or [N] (byte counts).
    - The virtual methods of [DiskInterface] are the fields of a type
      class over the state of the object and of the world behind it.
    - Everything the file calls but does not define ([libc], the Win32
      API, the helpers of [util.h]) is a field of the class [Env]; the
      code is written once against that class. *)

From Stdlib Require Import String Ascii List ZArith NArith Arith Bool Lia.
From Equations Require Import Equations.
Import ListNotations.

Set Default Goal Selector "!".

Local Open Scope string_scope.

(** ** [std::string] operations used by the file *)

Module StdString.

(** [s.find(c)]: the first position of [c] in [s], [None] for [npos]. *)
Fixpoint find (s : string) (c : ascii) : option nat :=
  match s with
  | EmptyString => None
  | String d rest =>
      if Ascii.eqb d c then Some 0
      else match find rest c with
           | Some i => Some (S i)
           | None => None
           end
  end.

(** Scan of [s] whose first character sits at position [pos]: the last
    position holding one of [chars]. *)
Fixpoint find_last_of_from (pos : nat) (s chars : string) : option nat :=
  match s with
  | EmptyString => None
  | String c rest =>
      match find_last_of_from (S pos) rest chars with
      | Some i => Some i
      | None =>
          match find chars c with
          | Some _ => Some pos
          | None => None
          end
      end
  end.

(** [s.find_last_of(chars)]. *)
Definition find_last_of (s chars : string) : option nat :=
  find_last_of_from 0 s chars.

(** [s.substr(0, n)]. *)
Definition substr0 (s : string) (n : nat) : string := substring 0 n s.

(** [s.empty()]. *)
Definition empty (s : string) : bool :=
  match s with
  | EmptyString => true
  | String _ _ => false
  end.

Lemma empty_true s : empty s = true <-> s = "".
Proof. destruct s; simpl; split; congruence. Qed.

Lemma empty_false s : empty s = false <-> s <> "".
Proof. destruct s; simpl; split; congruence. Qed.

Lemma find_last_of_from_bounds chars s :
  forall pos i,
    find_last_of_from pos s chars = Some i -> pos <= i < pos + String.length s.
Proof.
  induction s as [|c rest IH]; intros pos i H; simpl in H.
  - discriminate.
  - destruct (find_last_of_from (S pos) rest chars) as [j|] eqn:E.
    + injection H as <-. apply IH in E. simpl. lia.
    + destruct (find chars c); [injection H as <-; simpl; lia | discriminate].
Qed.

Lemma find_last_of_lt s chars i :
  find_last_of s chars = Some i -> i < String.length s.
Proof.
  intros H. apply find_last_of_from_bounds in H. lia.
Qed.

Lemma length_substr0 s :
  forall n, n <= String.length s -> String.length (substr0 s n) = n.
Proof.
  unfold substr0.
  induction s as [|c rest IH]; intros [|n] H; simpl in *; try lia.
  rewrite IH; lia.
Qed.

Lemma prefix_substr0 s : forall n, prefix (substr0 s n) s = true.
Proof.
  unfold substr0.
  induction s as [|c rest IH]; intros [|n]; simpl; try reflexivity.
  destruct (ascii_dec c c); [apply IH | congruence].
Qed.

End StdString.

(** ** [DirName] and [DiskInterface::MakeDirs] *)

(** Case analysis on a value that keeps the equation with what was
    analysed; [MakeDirs] uses it to remember that [dir] is the parent of
    [path] when it recurses on [dir]. *)
Definition inspect {A : Type} (x : A) : {y : A | x = y} := exist _ x eq_refl.

(** [TimeStamp] is declared in a header outside this file; the
    specification describes it as a signed integer whose sign carries
    the three-way result of [Stat]. It is kept unbounded: converting a
    modification time to it is taken to preserve the value. *)
Definition TimeStamp : Set := Z.

(** The virtual methods [MakeDirs] dispatches to. [St] is the state of
    the object together with the world it acts on. *)
Class DiskInterface (St : Type) : Type := {
  Stat : string -> St -> TimeStamp * St;
  MakeDir : string -> St -> bool * St
}.

Section MakeDirs.

(** The macro [DIR_SEP] comes from a header outside this file: the
    characters accepted as path separators. *)
Variable DIR_SEP : string.

Definition kPathSeparators : string := DIR_SEP.

(** [kPathSeparators.find(c) != string::npos]. *)
Definition is_separator (c : ascii) : bool :=
  match StdString.find kPathSeparators c with
  | Some _ => true
  | None => false
  end.

(** The [while] loop of [DirName]: step [slash_pos] back over the
    separators that precede it. *)
Fixpoint skip_separators (path : string) (slash_pos : nat) : nat :=
  match slash_pos with
  | 0 => 0
  | S before =>
      match get before path with
      | Some c => if is_separator c then skip_separators path before
                  else slash_pos
      | None => slash_pos
      end
  end.

Definition DirName (path : string) : string :=
  match StdString.find_last_of path kPathSeparators with
  | None => ""
  | Some slash_pos => StdString.substr0 path (skip_separators path slash_pos)
  end.

(** A path contains a separator. *)
Fixpoint has_separator (path : string) : bool :=
  match path with
  | EmptyString => false
  | String c rest => is_separator c || has_separator rest
  end.

Lemma skip_separators_le path n : skip_separators path n <= n.
Proof.
  induction n as [|n IH]; simpl; [lia|].
  destruct (get n path) as [c|]; [|lia].
  destruct (is_separator c); lia.
Qed.

Lemma find_last_of_from_None path :
  forall pos,
    StdString.find_last_of_from pos path kPathSeparators = None <->
    has_separator path = false.
Proof.
  induction path as [|c rest IH]; intros pos; simpl; [tauto|].
  unfold is_separator.
  destruct (StdString.find_last_of_from (S pos) rest kPathSeparators) eqn:E.
  - assert (has_separator rest <> false) as Hr.
    { intros Hr. apply (IH (S pos)) in Hr. congruence. }
    rewrite orb_false_iff. split; [discriminate | tauto].
  - apply IH in E. rewrite E, orb_false_r.
    destruct (StdString.find kPathSeparators c); split; congruence.
Qed.

Lemma DirName_no_separator path :
  has_separator path = false -> DirName path = "".
Proof.
  intros H. unfold DirName, StdString.find_last_of.
  apply (find_last_of_from_None path 0) in H. rewrite H. reflexivity.
Qed.

Lemma DirName_length path :
  DirName path = "" \/ String.length (DirName path) < String.length path.
Proof.
  unfold DirName.
  destruct (StdString.find_last_of path kPathSeparators) as [i|] eqn:E;
    [right | now left].
  apply StdString.find_last_of_lt in E.
  pose proof (skip_separators_le path i).
  rewrite StdString.length_substr0; lia.
Qed.

Lemma DirName_shorter path :
  DirName path <> "" -> String.length (DirName path) < String.length path.
Proof. destruct (DirName_length path); tauto. Qed.

Lemma DirName_prefix path : prefix (DirName path) path = true.
Proof.
  unfold DirName.
  destruct (StdString.find_last_of path kPathSeparators).
  - apply StdString.prefix_substr0.
  - destruct path; reflexivity.
Qed.

Context {St : Type} {D : DiskInterface St}.

Equations? MakeDirs (path : string) (s : St) : bool * St
  by wf (String.length path) lt :=
MakeDirs path s with inspect (DirName path) := {
  | exist _ dir Hdir with inspect (StdString.empty dir) := {
    | exist _ true _ => (true, s)  (* Reached root; assume it's there. *)
    | exist _ false Hne =>
        let '(mtime, s) := Stat dir s in
        if (mtime <? 0)%Z then (false, s)  (* Error. *)
        else if (mtime >? 0)%Z then (true, s)  (* Exists already. *)
        else
          (* Directory doesn't exist.  Try creating its parent first. *)
          let '(success, s) := MakeDirs dir s in
          if negb success then (false, s)
          else MakeDir dir s } }.
Proof.
  apply DirName_shorter. now apply StdString.empty_false.
Qed.

(** The body of [MakeDirs] as one equation. *)
Lemma MakeDirs_body path s :
  MakeDirs path s =
  let dir := DirName path in
  if StdString.empty dir then (true, s)
  else
    let '(mtime, s1) := Stat dir s in
    if (mtime <? 0)%Z then (false, s1)
    else if (mtime >? 0)%Z then (true, s1)
    else
      let '(success, s2) := MakeDirs dir s1 in
      if negb success then (false, s2) else MakeDir dir s2.
Proof.
  simp MakeDirs. unfold inspect at 1. simp MakeDirs.
  assert (forall b (H : StdString.empty (DirName path) = b),
    MakeDirs_unfold_clause_1_clause_1 path (DirName path) (exist _ b H) eq_refl s =
    if b then (true, s)
    else
      let '(mtime, s1) := Stat (DirName path) s in
      if (mtime <? 0)%Z then (false, s1)
      else if (mtime >? 0)%Z then (true, s1)
      else
        let '(success, s2) := MakeDirs (DirName path) s1 in
        if negb success then (false, s2) else MakeDir (DirName path) s2) as X.
  { intros [] H; simp MakeDirs; reflexivity. }
  exact (X _ eq_refl).
Qed.

End MakeDirs.

(** ** Observing the calls of [MakeDirs] *)

(** A call through the interface. *)
Inductive Call : Set :=
| CallStat (path : string)
| CallMakeDir (path : string).

(** A state paired with the calls made so far, oldest first: what an
    implementation wrapped to record its calls carries around. *)
Record Spy (C St : Type) : Type := { inner : St; calls : list C }.

Arguments inner {C St} _.
Arguments calls {C St} _.

Definition spy_on {C St : Type} (s : St) : Spy C St :=
  {| inner := s; calls := [] |}.

Definition record_call {C St : Type} (c : C) (w : Spy C St) (s : St)
  : Spy C St :=
  {| inner := s; calls := (calls w ++ [c])%list |}.

(** [D] wrapped so that it records every call it receives before
    forwarding it. *)
Definition Spied {St : Type} (D : DiskInterface St)
  : DiskInterface (Spy Call St) := {|
  Stat path w :=
    let '(mtime, s) := Stat path (inner w) in
    (mtime, record_call (CallStat path) w s);
  MakeDir path w :=
    let '(ok, s) := MakeDir path (inner w) in
    (ok, record_call (CallMakeDir path) w s)
|}.

(** The directories a call sequence asked to create, in call order. *)
Fixpoint makedir_calls (l : list Call) : list string :=
  match l with
  | [] => []
  | CallStat _ :: rest => makedir_calls rest
  | CallMakeDir d :: rest => d :: makedir_calls rest
  end.

Section Ancestors.

Variable DIR_SEP : string.

(** The chain [DirName path], [DirName (DirName path)], ... up to the
    first empty parent: the ancestor directories of [path], leaf first. *)
Equations? ancestors (path : string) : list string
  by wf (String.length path) lt :=
ancestors path with inspect (StdString.empty (DirName DIR_SEP path)) := {
  | exist _ true _ => []
  | exist _ false Hne => DirName DIR_SEP path :: ancestors (DirName DIR_SEP path) }.
Proof.
  apply DirName_shorter. now apply StdString.empty_false.
Qed.

Lemma ancestors_body path :
  ancestors path =
  if StdString.empty (DirName DIR_SEP path) then []
  else DirName DIR_SEP path :: ancestors (DirName DIR_SEP path).
Proof.
  assert (forall b (H : StdString.empty (DirName DIR_SEP path) = b),
    ancestors_unfold_clause_1 path (exist _ b H) =
    if b then [] else DirName DIR_SEP path :: ancestors (DirName DIR_SEP path)) as X.
  { intros [] H; reflexivity. }
  etransitivity; [apply ancestors_equation_1 | exact (X _ eq_refl)].
Qed.

(** Induction along the chain of parents. *)
Lemma DirName_ind (P : string -> Prop) :
  (forall path, DirName DIR_SEP path = "" -> P path) ->
  (forall path, DirName DIR_SEP path <> "" ->
                P (DirName DIR_SEP path) -> P path) ->
  forall path, P path.
Proof.
  intros Hroot Hstep path.
  remember (String.length path) as n eqn:Hn.
  revert path Hn.
  induction n as [n IH] using lt_wf_ind; intros path ->.
  destruct (string_dec (DirName DIR_SEP path) "") as [E|E].
  - now apply Hroot.
  - apply Hstep; [exact E|].
    apply (IH (String.length (DirName DIR_SEP path))); [|reflexivity].
    now apply DirName_shorter.
Qed.

(** [MakeDirs] with a budget on the depth of its recursion: [None] when a
    recursive call is needed and the budget is spent. *)
Fixpoint MakeDirs_fuel {St : Type} {D : DiskInterface St}
  (fuel : nat) (path : string) (s : St) : option (bool * St) :=
  let dir := DirName DIR_SEP path in
  if StdString.empty dir then Some (true, s)
  else
    let '(mtime, s) := Stat dir s in
    if (mtime <? 0)%Z then Some (false, s)
    else if (mtime >? 0)%Z then Some (true, s)
    else
      match fuel with
      | 0 => None
      | S fuel =>
          match MakeDirs_fuel fuel dir s with
          | None => None
          | Some (success, s) =>
              if negb success then Some (false, s)
              else Some (MakeDir dir s)
          end
      end.

End Ancestors.

(** ** What [RealDiskInterface] calls *)

(** An argument of a [printf]-style call, and the call's format together
    with its arguments. Formats are kept as the source spells them;
    formatting itself happens in the callee. *)
Inductive Arg : Set :=
| ArgStr (s : string)
| ArgInt (i : Z).

Record Message : Set := { format : string; args : list Arg }.

(** The one field of [struct stat] that is read. *)
Record struct_stat : Set := { st_mtime : Z }.

Record FILETIME : Set := { dwLowDateTime : Z; dwHighDateTime : Z }.

(** The one field of [WIN32_FILE_ATTRIBUTE_DATA] that is read. *)
Record WIN32_FILE_ATTRIBUTE_DATA : Set := { ftLastWriteTime : FILETIME }.

(** A non-null [FILE*]; [NULL] is [None] in an [option FILE]. *)
Definition FILE : Set := N.

(** Modelled from the spec: the full-file-read shim [::ReadFile] of
    [util.h], which this file calls but does not define. It "returns
    either the content or a negated error code"; the code is kept here
    before negation, with the text the shim leaves in its error output. *)
Inductive ReadOutcome : Set :=
| ReadContent (contents : string)
| ReadFailure (code : Z) (text : string).

(** The C library, the Win32 API and the helpers of [util.h], over the
    state [K] of the process and the system behind it. [errno] and
    [GetLastError] read that state. *)
Class Env (K : Type) : Type := {
  errno : K -> Z;
  strerror : Z -> string;
  printf : Message -> K -> K;
  stat : string -> K -> (Z * struct_stat) * K;
  fopen : string -> string -> K -> option FILE * K;
  fwrite : string -> N -> N -> FILE -> K -> N * K;
  fclose : FILE -> K -> Z * K;
  remove : string -> K -> Z * K;
  GetFileAttributesEx : string -> K -> (bool * WIN32_FILE_ATTRIBUTE_DATA) * K;
  GetLastError : K -> Z;
  GetLastErrorString : K -> string * K;
  FiletimeToTimestamp : FILETIME -> TimeStamp;
  Error : Message -> K -> K;
  util_MakeDir : string -> K -> Z * K;
  util_ReadFile : string -> bool -> K -> ReadOutcome * K
}.

(** [<errno.h>], [<stdio.h>] and [<windows.h>] constants. *)
Definition ENOENT : Z := 2.
Definition EOF : Z := -1.
Definition MAX_PATH : Z := 260.
Definition ERROR_FILE_NOT_FOUND : Z := 2.
Definition ERROR_PATH_NOT_FOUND : Z := 3.

(** The character literal ['\\']. *)
Definition backslash : ascii := ascii_of_nat 92.

(** The two sides of [#ifdef _WIN32]. *)
Inductive Platform : Set := Win32 | Posix.

Module RealDiskInterface.

Section Methods.

Context {K : Type} {E : Env K}.

(** The call [::ReadFile(path, &contents, err, binary)] with its two
    output parameters: the shim's outcome written through them. *)
Definition call_ReadFile (path contents err : string) (binary : bool) (k : K)
  : (Z * string * string) * K :=
  let '(outcome, k) := util_ReadFile path binary k in
  match outcome with
  | ReadContent c => ((0%Z, contents ++ c, err), k)
  | ReadFailure code text => ((- code)%Z, contents, text, k)
  end.

(** [!path.empty() && path[0] != '\\' && path.size() > MAX_PATH] *)
Definition too_long (path : string) : bool :=
  negb (StdString.empty path)
  && negb (match get 0 path with
           | Some c => Ascii.eqb c backslash
           | None => false
           end)
  && (Z.of_nat (String.length path) >? MAX_PATH)%Z.

Definition Stat_win32 (path : string) (k : K) : TimeStamp * K :=
  let k := printf {| format := "real stat: %s\n"; args := [ArgStr path] |} k in
  if too_long path then
    let k := Error {| format := "Stat(%s): Filename longer than %i characters";
                      args := [ArgStr path; ArgInt MAX_PATH] |} k in
    ((-1)%Z, k)
  else
    let '((ok, attrs), k) := GetFileAttributesEx path k in
    if negb ok then
      let err := GetLastError k in
      if (err =? ERROR_FILE_NOT_FOUND)%Z || (err =? ERROR_PATH_NOT_FOUND)%Z
      then (0%Z, k)
      else
        let '(text, k) := GetLastErrorString k in
        let k := Error {| format := "GetFileAttributesEx(%s): %s";
                          args := [ArgStr path; ArgStr text] |} k in
        ((-1)%Z, k)
    else (FiletimeToTimestamp (ftLastWriteTime attrs), k).

Definition Stat_posix (path : string) (k : K) : TimeStamp * K :=
  let '((ret, st), k) := stat path k in
  if (ret <? 0)%Z then
    if (errno k =? ENOENT)%Z then (0%Z, k)
    else
      let k := Error {| format := "stat(%s): %s";
                        args := [ArgStr path; ArgStr (strerror (errno k))] |} k in
      ((-1)%Z, k)
  else (st_mtime st, k).

Definition Stat (platform : Platform) : string -> K -> TimeStamp * K :=
  match platform with
  | Win32 => Stat_win32
  | Posix => Stat_posix
  end.

Definition WriteFile (path contents : string) (k : K) : bool * K :=
  let '(fp, k) := fopen path "w" k in
  match fp with
  | None =>
      let k := Error {| format := "WriteFile(%s): Unable to create file. %s";
                        args := [ArgStr path; ArgStr (strerror (errno k))] |} k in
      (false, k)
  | Some fp =>
      let length := N.of_nat (String.length contents) in
      let '(written, k) := fwrite contents 1 length fp k in
      if (written <? length)%N then
        let k := Error {| format := "WriteFile(%s): Unable to write to the file. %s";
                          args := [ArgStr path; ArgStr (strerror (errno k))] |} k in
        (false, k)
      else
        let '(ret, k) := fclose fp k in
        if (ret =? EOF)%Z then
          let k := Error {| format := "WriteFile(%s): Unable to close the file. %s";
                            args := [ArgStr path; ArgStr (strerror (errno k))] |} k in
          (false, k)
        else (true, k)
  end.

Definition MakeDir (path : string) (k : K) : bool * K :=
  let '(ret, k) := util_MakeDir path k in
  if (ret <? 0)%Z then
    let k := Error {| format := "mkdir(%s): %s";
                      args := [ArgStr path; ArgStr (strerror (errno k))] |} k in
    (false, k)
  else (true, k).

(** The result pairs the returned string with the final value of [*err]. *)
Definition ReadFile (path err : string) (binary : bool) (k : K)
  : (string * string) * K :=
  let contents := "" in
  let '((ret, contents, err), k) := call_ReadFile path contents err binary k in
  let err := if (ret =? - ENOENT)%Z then "" (* Swallow ENOENT. *) else err in
  ((contents, err), k).

Definition RemoveFile (path : string) (k : K) : Z * K :=
  let '(ret, k) := remove path k in
  if (ret <? 0)%Z then
    if (errno k =? ENOENT)%Z then (1%Z, k)
    else
      let k := Error {| format := "remove(%s): %s";
                        args := [ArgStr path; ArgStr (strerror (errno k))] |} k in
      ((-1)%Z, k)
  else (0%Z, k).

End Methods.

End RealDiskInterface.

(** [RealDiskInterface] as an implementation of [DiskInterface]. *)
Definition RealDisk {K : Type} {E : Env K} (platform : Platform)
  : DiskInterface K := {|
  Stat := RealDiskInterface.Stat platform;
  MakeDir := RealDiskInterface.MakeDir
|}.

(** ** Observing the calls of [RealDiskInterface] *)

Inductive Event : Set :=
| EvPrintf (m : Message)
| EvError (m : Message)
| EvStat (path : string)
| EvFopen (path mode : string)
| EvFwrite (data : string) (size count : N) (fp : FILE)
| EvFclose (fp : FILE)
| EvRemove (path : string)
| EvGetFileAttributesEx (path : string)
| EvGetLastErrorString
| EvMakeDir (path : string)
| EvReadFile (path : string) (binary : bool).

(** An environment wrapped so that it records every call made to it. *)
Definition SpiedEnv {K : Type} (E : Env K) : Env (Spy Event K) := {|
  errno w := errno (inner w);
  strerror := strerror;
  printf m w := record_call (EvPrintf m) w (printf m (inner w));
  stat path w :=
    let '(r, k) := stat path (inner w) in (r, record_call (EvStat path) w k);
  fopen path mode w :=
    let '(r, k) := fopen path mode (inner w) in
    (r, record_call (EvFopen path mode) w k);
  fwrite data size count fp w :=
    let '(r, k) := fwrite data size count fp (inner w) in
    (r, record_call (EvFwrite data size count fp) w k);
  fclose fp w :=
    let '(r, k) := fclose fp (inner w) in (r, record_call (EvFclose fp) w k);
  remove path w :=
    let '(r, k) := remove path (inner w) in (r, record_call (EvRemove path) w k);
  GetFileAttributesEx path w :=
    let '(r, k) := GetFileAttributesEx path (inner w) in
    (r, record_call (EvGetFileAttributesEx path) w k);
  GetLastError w := GetLastError (inner w);
  GetLastErrorString w :=
    let '(r, k) := GetLastErrorString (inner w) in
    (r, record_call EvGetLastErrorString w k);
  FiletimeToTimestamp := FiletimeToTimestamp;
  Error m w := record_call (EvError m) w (Error m (inner w));
  util_MakeDir path w :=
    let '(r, k) := util_MakeDir path (inner w) in
    (r, record_call (EvMakeDir path) w k);
  util_ReadFile path binary w :=
    let '(r, k) := util_ReadFile path binary (inner w) in
    (r, record_call (EvReadFile path binary) w k)
|}.

(** The messages handed to [Error], oldest first. *)
Fixpoint diagnostics (l : list Event) : list Message :=
  match l with
  | [] => []
  | EvError m :: rest => m :: diagnostics rest
  | _ :: rest => diagnostics rest
  end.

(** ** Vocabulary of the properties *)

(** What [MakeDirs] needs of a directory tree for its result to mean
    something: [exists_dir s d] reads "directory [d] exists in [s]";
    [Stat] reports it without disturbing it, and [MakeDir] creates one
    level, given its parent. *)
Record Filesystem (DIR_SEP : string) {St : Type} (D : DiskInterface St)
  (exists_dir : St -> string -> Prop) : Prop := {
  Stat_present : forall d s, (0 < fst (Stat d s))%Z <-> exists_dir s d;
  Stat_absent : forall d s, fst (Stat d s) = 0%Z <-> ~ exists_dir s d;
  Stat_view : forall d s e, exists_dir (snd (Stat d s)) e <-> exists_dir s e;
  MakeDir_ok : forall d s,
    ~ exists_dir s d ->
    DirName DIR_SEP d = "" \/ exists_dir s (DirName DIR_SEP d) ->
    fst (MakeDir d s) = true;
  MakeDir_view : forall d s e,
    fst (MakeDir d s) = true ->
    (exists_dir (snd (MakeDir d s)) e <-> e = d \/ exists_dir s e)
}.

Arguments Stat_present {DIR_SEP St D exists_dir} _ d s.
Arguments Stat_absent {DIR_SEP St D exists_dir} _ d s.
Arguments Stat_view {DIR_SEP St D exists_dir} _ d s e.
Arguments MakeDir_ok {DIR_SEP St D exists_dir} _ d s _ _.
Arguments MakeDir_view {DIR_SEP St D exists_dir} _ d s e _.

(** The first line [Stat] prints on the platform with a path-length
    limit. *)
Definition stat_trace_line (path : string) : Message :=
  {| format := "real stat: %s\n"; args := [ArgStr path] |}.

(** The metadata call of [Stat] reports that [path] does not exist:
    [stat] fails with [ENOENT], or [GetFileAttributesEx] (called once the
    trace line is printed) fails with one of the two not-found codes. *)
Definition does_not_exist {K : Type} {E : Env K}
  (platform : Platform) (path : string) (k : K) : Prop :=
  match platform with
  | Posix =>
      (fst (fst (stat path k)) < 0)%Z /\ errno (snd (stat path k)) = ENOENT
  | Win32 =>
      let r := GetFileAttributesEx path (printf (stat_trace_line path) k) in
      fst (fst r) = false /\
      (GetLastError (snd r) = ERROR_FILE_NOT_FOUND \/
       GetLastError (snd r) = ERROR_PATH_NOT_FOUND)
  end.

(** The message [WriteFile] hands to [Error] when a step fails. *)
Definition WriteFile_complaint {K : Type} {E : Env K}
  (what path : string) (k : K) : Message :=
  {| format := "WriteFile(%s): Unable to " ++ what ++ " %s";
     args := [ArgStr path; ArgStr (strerror (errno k))] |}.

(** ** Test doubles *)

(** An in-memory directory tree: the directories that exist. [MakeDir]
    creates one level and fails when the directory is there already or
    its parent is not. *)
Definition MemDisk (DIR_SEP : string) : DiskInterface (list string) := {|
  Stat path dirs :=
    (if List.existsb (String.eqb path) dirs then 1%Z else 0%Z, dirs);
  MakeDir path dirs :=
    if List.existsb (String.eqb path) dirs then (false, dirs)
    else if StdString.empty (DirName DIR_SEP path)
            || List.existsb (String.eqb (DirName DIR_SEP path)) dirs
         then (true, (dirs ++ [path])%list)
         else (false, dirs)
|}.

(** A disk whose every query fails. *)
Definition BrokenDisk : DiskInterface unit := {|
  Stat _ s := ((-1)%Z, s);
  MakeDir _ s := (false, s)
|}.

(** What a scripted environment answers, whatever it is asked. *)
Record Script : Set := {
  on_errno : Z;
  on_stat : Z * struct_stat;
  on_fopen : option FILE;
  on_fwrite : N;
  on_fclose : Z;
  on_remove : Z;
  on_GetFileAttributesEx : bool * WIN32_FILE_ATTRIBUTE_DATA;
  on_GetLastError : Z;
  on_MakeDir : Z;
  on_ReadFile : ReadOutcome
}.

Definition Scripted (sc : Script) : Env unit := {|
  errno _ := on_errno sc;
  strerror code := if (code =? ENOENT)%Z then "No such file or directory"
                   else if (code =? 13)%Z then "Permission denied"
                   else if (code =? 17)%Z then "File exists"
                   else "Input/output error";
  printf _ k := k;
  stat _ k := (on_stat sc, k);
  fopen _ _ k := (on_fopen sc, k);
  fwrite _ _ _ _ k := (on_fwrite sc, k);
  fclose _ k := (on_fclose sc, k);
  remove _ k := (on_remove sc, k);
  GetFileAttributesEx _ k := (on_GetFileAttributesEx sc, k);
  GetLastError _ := on_GetLastError sc;
  GetLastErrorString k := ("Access is denied.", k);
  FiletimeToTimestamp ft := dwLowDateTime ft;
  Error _ k := k;
  util_MakeDir _ k := (on_MakeDir sc, k);
  util_ReadFile _ _ k := (on_ReadFile sc, k)
|}.

(** Everything succeeds: the file exists with modification time 1000,
    and writes are complete. *)
Definition all_fine : Script := {|
  on_errno := 0;
  on_stat := (0%Z, {| st_mtime := 1000 |});
  on_fopen := Some 3%N;
  on_fwrite := 5%N;
  on_fclose := 0;
  on_remove := 0;
  on_GetFileAttributesEx :=
    (true, {| ftLastWriteTime := {| dwLowDateTime := 1000; dwHighDateTime := 0 |} |});
  on_GetLastError := 0;
  on_MakeDir := 0;
  on_ReadFile := ReadContent "hello"
|}.

(** Nothing is there: every call fails with the does-not-exist code. *)
Definition nothing_there : Script := {|
  on_errno := ENOENT;
  on_stat := ((-1)%Z, {| st_mtime := 0 |});
  on_fopen := None;
  on_fwrite := 0%N;
  on_fclose := EOF;
  on_remove := (-1)%Z;
  on_GetFileAttributesEx :=
    (false, {| ftLastWriteTime := {| dwLowDateTime := 0; dwHighDateTime := 0 |} |});
  on_GetLastError := ERROR_FILE_NOT_FOUND;
  on_MakeDir := (-1)%Z;
  on_ReadFile := ReadFailure ENOENT "No such file or directory"
|}.

(** A path of 261 characters, one more than [MAX_PATH]. *)
Definition overlong_path : string :=
  string_of_list_ascii (repeat "a"%char 261).

(** An existing file or directory last modified at the epoch; creating
    it again fails with [EEXIST]. *)
Definition epoch_file : Script := {|
  on_errno := 17;
  on_stat := (0%Z, {| st_mtime := 0 |});
  on_fopen := Some 3%N;
  on_fwrite := 5%N;
  on_fclose := 0;
  on_remove := 0;
  on_GetFileAttributesEx :=
    (true, {| ftLastWriteTime := {| dwLowDateTime := 0; dwHighDateTime := 0 |} |});
  on_GetLastError := 0;
  on_MakeDir := (-1)%Z;
  on_ReadFile := ReadContent ""
|}.

(** Removal is refused for a reason other than absence. *)
Definition permission_denied : Script := {|
  on_errno := 13;
  on_stat := (0%Z, {| st_mtime := 1000 |});
  on_fopen := None;
  on_fwrite := 0%N;
  on_fclose := EOF;
  on_remove := (-1)%Z;
  on_GetFileAttributesEx :=
    (false, {| ftLastWriteTime := {| dwLowDateTime := 0; dwHighDateTime := 0 |} |});
  on_GetLastError := 5;
  on_MakeDir := (-1)%Z;
  on_ReadFile := ReadFailure 13 "Permission denied"
|}.

(** Push the recording environment one call further. *)
Ltac spy_step :=
  unfold record_call;
  cbn [errno fopen fwrite fclose remove stat Error printf
       SpiedEnv spy_on inner calls].

(** ** Properties of [DirName] and [MakeDirs] *)

Section MakeDirsFacts.

Variable DIR_SEP : string.
Context {St : Type} (D : DiskInterface St).

Local Abbreviation DirName := (DirName DIR_SEP).
Local Abbreviation ancestors := (ancestors DIR_SEP).
Local Abbreviation MakeDirs := (@MakeDirs DIR_SEP _ D).

Lemma MakeDirs_root path (s : St) :
  DirName path = "" -> MakeDirs path s = (true, s).
Proof.
  intros E. rewrite MakeDirs_body. cbv zeta. rewrite E. reflexivity.
Qed.

Lemma ancestors_root path : DirName path = "" -> ancestors path = [].
Proof.
  intros E. rewrite ancestors_body, E. reflexivity.
Qed.

Lemma ancestors_step path :
  DirName path <> "" ->
  ancestors path = DirName path :: ancestors (DirName path).
Proof.
  intros E. rewrite ancestors_body.
  apply StdString.empty_false in E. rewrite E. reflexivity.
Qed.

Lemma ancestors_shorter path :
  forall d, In d (ancestors path) -> String.length d < String.length path.
Proof.
  induction path as [path E | path E IH] using (DirName_ind DIR_SEP); intros d Hd.
  - rewrite (ancestors_root _ E) in Hd. destruct Hd.
  - rewrite (ancestors_step _ E) in Hd.
    pose proof (DirName_shorter _ _ E) as Hlt.
    destruct Hd as [<- | Hd]; [exact Hlt|].
    apply IH in Hd. lia.
Qed.

Lemma ancestors_length path :
  List.length (ancestors path) <= String.length path.
Proof.
  induction path as [path E | path E IH] using (DirName_ind DIR_SEP).
  - rewrite (ancestors_root _ E). simpl. lia.
  - rewrite (ancestors_step _ E). simpl.
    pose proof (DirName_shorter _ _ E). lia.
Qed.

(** With enough budget the bounded recursion is [MakeDirs]. *)
Lemma MakeDirs_fuel_enough fuel :
  forall path (s : St),
    String.length path <= fuel ->
    MakeDirs_fuel DIR_SEP fuel path s = Some (MakeDirs path s).
Proof.
  induction fuel as [|fuel IH]; intros path s Hlen;
    rewrite MakeDirs_body; cbn [MakeDirs_fuel]; cbv zeta;
    destruct (StdString.empty (DirName path)) eqn:E; try reflexivity;
    destruct (Stat (DirName path) s) as [mtime s1];
    destruct (mtime <? 0)%Z; try reflexivity;
    destruct (mtime >? 0)%Z; try reflexivity;
    apply StdString.empty_false, DirName_shorter in E.
  - lia.
  - rewrite IH by lia.
    destruct (MakeDirs (DirName path) s1) as [[] s2]; [|reflexivity].
    destruct (MakeDir (DirName path) s2); reflexivity.
Qed.

End MakeDirsFacts.

Section MakeDirsCalls.

Variable DIR_SEP : string.
Context {St : Type} (D : DiskInterface St).

Local Abbreviation DirName := (DirName DIR_SEP).
Local Abbreviation ancestors := (ancestors DIR_SEP).
Local Abbreviation MakeDirs_spied := (@MakeDirs DIR_SEP _ (Spied D)).
Local Abbreviation MakeDirs := (@MakeDirs DIR_SEP _ D).

(** The three-way branch on [Stat]'s result, seen through the spy. *)
Lemma MakeDirs_Spied_step path (w : Spy Call St) mtime s1 :
  DirName path <> "" ->
  @Stat _ D (DirName path) (inner w) = (mtime, s1) ->
  let dir := DirName path in
  let w1 := record_call (CallStat dir) w s1 in
  MakeDirs_spied path w =
  if (mtime <? 0)%Z then (false, w1)
  else if (mtime >? 0)%Z then (true, w1)
  else
    let '(success, w2) := MakeDirs_spied dir w1 in
    if success then
      let '(ok, s3) := @MakeDir _ D dir (inner w2) in
      (ok, record_call (CallMakeDir dir) w2 s3)
    else (false, w2).
Proof.
  intros E HS. rewrite MakeDirs_body. cbv zeta.
  apply StdString.empty_false in E. rewrite E.
  cbn [Stat Spied]. rewrite HS.
  destruct (mtime <? 0)%Z; [reflexivity|].
  destruct (mtime >? 0)%Z; [reflexivity|].
  destruct (MakeDirs_spied _ _) as [[] w2]; reflexivity.
Qed.

(** A parent that [Stat] reports present ends [MakeDirs] at once. *)
Lemma MakeDirs_Spied_present path (s : St) :
  DirName path = "" \/ (0 < fst (@Stat _ D (DirName path) s))%Z ->
  fst (MakeDirs_spied path (spy_on s)) = true /\
  makedir_calls (calls (snd (MakeDirs_spied path (spy_on s)))) = [].
Proof.
  intros [E | Hpos].
  - rewrite (MakeDirs_root DIR_SEP (Spied D) _ _ E). split; reflexivity.
  - destruct (string_dec (DirName path) "") as [E | E].
    + rewrite (MakeDirs_root DIR_SEP (Spied D) _ _ E). split; reflexivity.
    + destruct (@Stat _ D (DirName path) s) as [mtime s1] eqn:HS.
      rewrite (MakeDirs_Spied_step path (spy_on s) _ _ E HS). cbv zeta.
      simpl in Hpos.
      destruct (mtime <? 0)%Z eqn:Hneg; [apply Z.ltb_lt in Hneg; lia|].
      destruct (mtime >? 0)%Z eqn:Hgt; [split; reflexivity|].
      rewrite Z.gtb_ltb in Hgt. apply Z.ltb_ge in Hgt. lia.
Qed.

Section OnAFilesystem.

Variable exists_dir : St -> string -> Prop.
Hypothesis FS : Filesystem DIR_SEP D exists_dir.

(** When [MakeDirs] succeeds, the parent of its argument exists. *)
Lemma MakeDirs_success_parent path (s : St) :
  fst (MakeDirs path s) = true ->
  DirName path = "" \/ exists_dir (snd (MakeDirs path s)) (DirName path).
Proof.
  rewrite MakeDirs_body. cbv zeta.
  destruct (string_dec (DirName path) "") as [E | E]; [now left | ].
  apply StdString.empty_false in E. rewrite E.
  pose proof (Stat_present FS (DirName path) s) as Hpres.
  pose proof (Stat_view FS (DirName path) s (DirName path)) as Hview.
  destruct (Stat (DirName path) s) as [mtime s1]. simpl in Hpres, Hview.
  destruct (mtime <? 0)%Z; [discriminate|].
  destruct (mtime >? 0)%Z eqn:Hgt.
  - intros _. right. simpl. apply Hview, Hpres.
    rewrite Z.gtb_ltb in Hgt. now apply Z.ltb_lt.
  - destruct (MakeDirs (DirName path) s1) as [[] s2]; [|discriminate].
    simpl. intros Hok. right.
    apply (MakeDir_view FS _ _ (DirName path) Hok). now left.
Qed.

(** On a tree holding none of the ancestors of [path], [MakeDirs]
    queries them leaf first, then creates them root first. *)
Lemma MakeDirs_creates_ancestors path :
  forall (s : St) (log : list Call),
    (forall d, In d (ancestors path) -> ~ exists_dir s d) ->
    exists s',
      MakeDirs_spied path {| inner := s; calls := log |} =
      (true,
       {| inner := s';
          calls := (log ++ map CallStat (ancestors path)
                        ++ map CallMakeDir (rev (ancestors path)))%list |}) /\
      forall d, exists_dir s' d <-> In d (ancestors path) \/ exists_dir s d.
Proof.
  induction path as [path E | path E IH] using (DirName_ind DIR_SEP);
    intros s log Habs.
  - exists s. rewrite (MakeDirs_root DIR_SEP (Spied D) _ _ E).
    rewrite (ancestors_root DIR_SEP _ E). simpl. rewrite app_nil_r.
    split; [reflexivity | tauto].
  - rewrite (ancestors_step DIR_SEP _ E) in *.
    set (dir := DirName path) in *.
    pose proof (proj2 (Stat_absent FS dir s) (Habs dir (or_introl eq_refl)))
      as Hzero.
    pose proof (Stat_view FS dir s) as Hview.
    destruct (@Stat _ D dir s) as [mtime s1] eqn:HS. simpl in Hzero, Hview.
    subst mtime.
    rewrite (MakeDirs_Spied_step path {| inner := s; calls := log |} _ _ E HS).
    cbv zeta. fold dir.
    change (0 <? 0)%Z with false. change (0 >? 0)%Z with false. cbv iota.
    destruct (IH s1 (log ++ [CallStat dir])%list) as (s2 & Heq & Hview2).
    { intros d Hd Hex. apply Hview in Hex.
      exact (Habs d (or_intror Hd) Hex). }
    unfold record_call. cbn [inner calls].
    rewrite Heq. cbn [inner calls].
    assert (~ exists_dir s2 dir) as Hfresh.
    { intros Hex. apply Hview2 in Hex. destruct Hex as [Hin | Hex].
      - apply ancestors_shorter in Hin. lia.
      - apply Hview in Hex. exact (Habs dir (or_introl eq_refl) Hex). }
    assert (DirName dir = "" \/
            exists_dir s2 (DirName dir)) as Hparent.
    { destruct (string_dec (DirName dir) "") as [E' | E'];
        [now left | right].
      apply Hview2. left. rewrite (ancestors_step DIR_SEP _ E'). now left. }
    pose proof (MakeDir_ok FS dir s2 Hfresh Hparent) as Hok.
    pose proof (MakeDir_view FS dir s2) as Hview3.
    destruct (@MakeDir _ D dir s2) as [ok s3]. simpl in Hok, Hview3.
    subst ok. exists s3. split.
    + do 2 f_equal.
      simpl. rewrite map_app. simpl.
      repeat rewrite <- app_assoc. reflexivity.
    + intros d. rewrite (Hview3 d eq_refl), Hview2, Hview. simpl.
      intuition congruence.
Qed.

End OnAFilesystem.

End MakeDirsCalls.

(** ** The in-memory tree is a filesystem *)

Lemma existsb_eqb_In (d : string) (dirs : list string) :
  List.existsb (String.eqb d) dirs = true <-> In d dirs.
Proof.
  rewrite existsb_exists. split.
  - intros (e & Hin & Heq). apply String.eqb_eq in Heq. now subst e.
  - intros Hin. exists d. split; [exact Hin | apply String.eqb_refl].
Qed.

Lemma MemDisk_Filesystem (DIR_SEP : string) :
  Filesystem DIR_SEP (MemDisk DIR_SEP) (fun dirs d => In d dirs).
Proof.
  split; cbn [Stat MakeDir MemDisk].
  - intros d dirs. rewrite <- existsb_eqb_In.
    destruct (List.existsb (String.eqb d) dirs); simpl; split;
      (reflexivity || lia || discriminate).
  - intros d dirs. rewrite <- existsb_eqb_In.
    destruct (List.existsb (String.eqb d) dirs); simpl; split;
      (reflexivity || discriminate || congruence).
  - reflexivity.
  - intros d dirs Hfresh Hparent.
    rewrite <- existsb_eqb_In in Hfresh.
    destruct (List.existsb (String.eqb d) dirs); [congruence|].
    destruct Hparent as [Hroot | Hin].
    + rewrite Hroot. reflexivity.
    + apply existsb_eqb_In in Hin. rewrite Hin, orb_true_r. reflexivity.
  - intros d dirs e.
    destruct (List.existsb (String.eqb d) dirs); [discriminate|].
    destruct (StdString.empty (DirName DIR_SEP d)
              || List.existsb (String.eqb (DirName DIR_SEP d)) dirs);
      [|discriminate].
    intros _. simpl. rewrite in_app_iff. simpl. intuition congruence.
Qed.

(** The scenario of the specification: the ancestors of a file three
    directories deep, leaf first. *)
Example ancestors_of_nested_file :
  ancestors "/" "a/b/c/file.txt" = ["a/b/c"; "a/b"; "a"].
Proof. vm_compute. reflexivity. Qed.

(** A run of consecutive separators is one separator. *)
Example DirName_collapses_separators : DirName "/" "a///b" = "a".
Proof. reflexivity. Qed.

(** ** The claims about [MakeDirs] *)

(** C5. For a path that contains no separator, [MakeDirs] returns
    success and calls neither [Stat] nor [MakeDir]: the recording
    implementation is handed back as it was received. *)
Theorem C5_MakeDirs_no_separator :
  forall (DIR_SEP : string) (St : Type) (D : DiskInterface St)
         (path : string) (w : Spy Call St),
    has_separator DIR_SEP path = false ->
    @MakeDirs DIR_SEP _ (Spied D) path w = (true, w).
Proof.
  intros DIR_SEP St D path w Hnone.
  apply MakeDirs_root. now apply DirName_no_separator.
Qed.

Lemma C5_witness_plain_file_name :
  @MakeDirs "/" _ (Spied BrokenDisk) "file.txt" (spy_on tt) = (true, spy_on tt).
Proof.
  apply (C5_MakeDirs_no_separator "/" unit BrokenDisk "file.txt" (spy_on tt)).
  reflexivity.
Defined.

(** C10. [MakeDirs] terminates on every path. A non-empty [DirName path]
    is a prefix of [path] and strictly shorter; the chain of parents of
    [path] therefore has at most as many members as [path] has
    characters, and a recursion budget of the length of [path] is always
    enough for [MakeDirs] to return. *)
Theorem C10_MakeDirs_terminates :
  forall (DIR_SEP : string) (St : Type) (D : DiskInterface St)
         (path : string) (s : St),
    (DirName DIR_SEP path <> "" ->
     prefix (DirName DIR_SEP path) path = true /\
     String.length (DirName DIR_SEP path) < String.length path) /\
    List.length (ancestors DIR_SEP path) <= String.length path /\
    (forall fuel,
       String.length path <= fuel ->
       MakeDirs_fuel DIR_SEP fuel path s = Some (MakeDirs DIR_SEP path s)).
Proof.
  intros DIR_SEP St D path s. split; [|split].
  - intros E. split; [apply DirName_prefix | now apply DirName_shorter].
  - apply ancestors_length.
  - intros fuel Hfuel. now apply MakeDirs_fuel_enough.
Qed.

Lemma C10_witness_nested_file :
  (prefix (DirName "/" "a/b/c/file.txt") "a/b/c/file.txt" = true /\
   String.length (DirName "/" "a/b/c/file.txt") < String.length "a/b/c/file.txt") /\
  MakeDirs_fuel (D := MemDisk "/") "/" 14 "a/b/c/file.txt" [] =
  Some (MakeDirs (D := MemDisk "/") "/" "a/b/c/file.txt" []).
Proof.
  destruct (C10_MakeDirs_terminates "/" _ (MemDisk "/") "a/b/c/file.txt" [])
    as (Hprefix & _ & Hfuel).
  split.
  - apply Hprefix. discriminate.
  - apply Hfuel. simpl. lia.
Defined.

(** C1 (as the specification states it) fails on a path whose only
    separator run is at its start: the path contains a separator and
    [Stat] on the derived parent reports an error, yet [MakeDirs] returns
    success without a single call, because the derived parent is empty. *)
Lemma C1_counterexample_leading_separator :
  has_separator "/" "/file.txt" = true /\
  (fst (@Stat _ BrokenDisk (DirName "/" "/file.txt") tt) < 0)%Z /\
  @MakeDirs "/" _ (Spied BrokenDisk) "/file.txt" (spy_on tt) = (true, spy_on tt).
Proof.
  split; [reflexivity|]. split; [reflexivity|].
  apply MakeDirs_root. reflexivity.
Qed.

(** C1 (amended). For every path whose derived parent [dir] is not empty,
    [MakeDirs] calls [Stat dir] first. A negative result makes it return
    failure at once and a positive one success at once, no [MakeDir]
    called in either case. On zero it runs [MakeDirs dir]; when that
    fails it returns failure, and when it succeeds it calls
    [MakeDir dir] and returns its result. Hence on a filesystem that
    holds no ancestor of the path, it queries the ancestors leaf first,
    then creates every one of them root first, and succeeds. *)
Theorem C1_MakeDirs_stat_then_create :
  forall (DIR_SEP : string) (St : Type) (D : DiskInterface St) (path : string),
    DirName DIR_SEP path <> "" ->
    let dir := DirName DIR_SEP path in
    (forall (w : Spy Call St) (mtime : TimeStamp) (s1 : St),
       @Stat _ D dir (inner w) = (mtime, s1) ->
       let w1 := record_call (CallStat dir) w s1 in
       ((mtime < 0)%Z ->
        @MakeDirs DIR_SEP _ (Spied D) path w = (false, w1)) /\
       ((mtime > 0)%Z ->
        @MakeDirs DIR_SEP _ (Spied D) path w = (true, w1)) /\
       (mtime = 0%Z ->
        forall (success : bool) (w2 : Spy Call St),
          @MakeDirs DIR_SEP _ (Spied D) dir w1 = (success, w2) ->
          (success = false ->
           @MakeDirs DIR_SEP _ (Spied D) path w = (false, w2)) /\
          (success = true ->
           @MakeDirs DIR_SEP _ (Spied D) path w =
           (fst (@MakeDir _ D dir (inner w2)),
            record_call (CallMakeDir dir) w2
                        (snd (@MakeDir _ D dir (inner w2))))))) /\
    (forall (exists_dir : St -> string -> Prop) (s : St),
       Filesystem DIR_SEP D exists_dir ->
       (forall d, In d (ancestors DIR_SEP path) -> ~ exists_dir s d) ->
       exists s',
         @MakeDirs DIR_SEP _ (Spied D) path (spy_on s) =
         (true,
          {| inner := s';
             calls := (map CallStat (ancestors DIR_SEP path)
                         ++ map CallMakeDir (rev (ancestors DIR_SEP path)))%list |})
         /\ forall d, In d (ancestors DIR_SEP path) -> exists_dir s' d).
Proof.
  intros DIR_SEP St D path E dir. split.
  - intros w mtime s1 HS w1.
    rewrite (MakeDirs_Spied_step DIR_SEP D path w mtime s1 E HS).
    cbv zeta. fold dir. fold w1.
    split; [|split].
    + intros Hneg. apply Z.ltb_lt in Hneg. rewrite Hneg. reflexivity.
    + intros Hpos.
      destruct (mtime <? 0)%Z eqn:Hneg; [apply Z.ltb_lt in Hneg; lia|].
      apply Z.gt_lt, Z.ltb_lt in Hpos. rewrite Z.gtb_ltb, Hpos. reflexivity.
    + intros -> success w2 Hrec. simpl. rewrite Hrec.
      split; intros ->; [reflexivity|].
      destruct (@MakeDir _ D dir (inner w2)). reflexivity.
  - intros exists_dir s FS Habs.
    destruct (MakeDirs_creates_ancestors DIR_SEP D exists_dir FS path s [] Habs)
      as (s' & Heq & Hview).
    exists s'. split; [exact Heq|].
    intros d Hd. apply Hview. now left.
Qed.

Lemma C1_witness_empty_tree :
  DirName "/" "a/b/c/file.txt" <> "" /\
  exists dirs,
    @MakeDirs "/" _ (Spied (MemDisk "/")) "a/b/c/file.txt" (spy_on []) =
    (true,
     {| inner := dirs;
        calls := (map CallStat (ancestors "/" "a/b/c/file.txt")
                    ++ map CallMakeDir (rev (ancestors "/" "a/b/c/file.txt")))%list |})
    /\ forall d, In d (ancestors "/" "a/b/c/file.txt") -> In d dirs.
Proof.
  assert (DirName "/" "a/b/c/file.txt" <> "") as E by discriminate.
  split; [exact E|].
  apply (proj2 (C1_MakeDirs_stat_then_create "/" _ (MemDisk "/")
                  "a/b/c/file.txt" E)
               (fun dirs d => In d dirs) []).
  - apply MemDisk_Filesystem.
  - intros d _ Hin. destruct Hin.
Defined.

(** The scenario of the specification, run: three queries leaf first,
    then three creations root first. *)
Example MakeDirs_on_empty_tree :
  @MakeDirs "/" _ (Spied (MemDisk "/")) "a/b/c/file.txt" (spy_on []) =
  (true,
   {| inner := ["a"; "a/b"; "a/b/c"];
      calls := [CallStat "a/b/c"; CallStat "a/b"; CallStat "a";
                CallMakeDir "a"; CallMakeDir "a/b"; CallMakeDir "a/b/c"] |}).
Proof. vm_compute. reflexivity. Qed.

(** C4. When [Stat] reports the derived parent present, [MakeDirs]
    returns success and calls [MakeDir] not once. On a filesystem, a
    second [MakeDirs] of the same path right after a successful one
    returns success and calls [MakeDir] not once either. *)
Theorem C4_MakeDirs_idempotent :
  forall (DIR_SEP : string) (St : Type) (D : DiskInterface St)
         (path : string) (s : St),
    ((0 < fst (@Stat _ D (DirName DIR_SEP path) s))%Z ->
     fst (@MakeDirs DIR_SEP _ (Spied D) path (spy_on s)) = true /\
     makedir_calls
       (calls (snd (@MakeDirs DIR_SEP _ (Spied D) path (spy_on s)))) = []) /\
    (forall (exists_dir : St -> string -> Prop),
       Filesystem DIR_SEP D exists_dir ->
       fst (@MakeDirs DIR_SEP _ D path s) = true ->
       let s' := snd (@MakeDirs DIR_SEP _ D path s) in
       fst (@MakeDirs DIR_SEP _ (Spied D) path (spy_on s')) = true /\
       makedir_calls
         (calls (snd (@MakeDirs DIR_SEP _ (Spied D) path (spy_on s')))) = []).
Proof.
  intros DIR_SEP St D path s. split.
  - intros Hpos. apply MakeDirs_Spied_present. now right.
  - intros exists_dir FS Hok s'.
    apply MakeDirs_Spied_present.
    destruct (MakeDirs_success_parent DIR_SEP D exists_dir FS path s Hok) as [E | Hex];
      [now left | right].
    now apply (Stat_present FS).
Qed.

Lemma C4_witness_second_call :
  let first := @MakeDirs "/" _ (MemDisk "/") "a/b/c/file.txt" [] in
  let again := @MakeDirs "/" _ (Spied (MemDisk "/")) "a/b/c/file.txt"
                         (spy_on (snd first)) in
  fst first = true /\ fst again = true /\ makedir_calls (calls (snd again)) = [].
Proof.
  intros first again.
  assert (fst first = true) as Hok by (vm_compute; reflexivity).
  split; [exact Hok|].
  exact (proj2 (C4_MakeDirs_idempotent "/" _ (MemDisk "/") "a/b/c/file.txt" [])
               (fun dirs d => In d dirs) (MemDisk_Filesystem "/") Hok).
Defined.

(** ** The claims about [RealDiskInterface] *)

Section RealDiskFacts.

Context {K : Type} (E : Env K).

Local Abbreviation Stat_spied := (@RealDiskInterface.Stat _ (SpiedEnv E)).

(** When [stat] succeeds, [Stat] returns the modification time it read,
    whatever its sign, and reports nothing. *)
Lemma Stat_posix_success path k ret st k' :
  stat path k = ((ret, st), k') ->
  (0 <= ret)%Z ->
  Stat_spied Posix path (spy_on k) =
  (st_mtime st, {| inner := k'; calls := [EvStat path] |}).
Proof.
  intros Hstat Hret.
  unfold RealDiskInterface.Stat, RealDiskInterface.Stat_posix.
  cbn [stat SpiedEnv spy_on inner]. rewrite Hstat.
  destruct (ret <? 0)%Z eqn:Hneg; [apply Z.ltb_lt in Hneg; lia|].
  reflexivity.
Qed.

Lemma Stat_posix_missing path k :
  does_not_exist Posix path k ->
  Stat_spied Posix path (spy_on k) =
  (0%Z, {| inner := snd (stat path k); calls := [EvStat path] |}).
Proof.
  intros [Hret Herrno].
  unfold RealDiskInterface.Stat, RealDiskInterface.Stat_posix.
  cbn [stat SpiedEnv spy_on inner].
  destruct (stat path k) as [[ret st] k']. simpl in Hret, Herrno.
  apply Z.ltb_lt in Hret. rewrite Hret.
  cbn [errno SpiedEnv record_call inner]. rewrite Herrno. reflexivity.
Qed.

Lemma Stat_win32_missing path k :
  does_not_exist Win32 path k ->
  RealDiskInterface.too_long path = false ->
  Stat_spied Win32 path (spy_on k) =
  (0%Z,
   {| inner := snd (GetFileAttributesEx path (printf (stat_trace_line path) k));
      calls := [EvPrintf (stat_trace_line path); EvGetFileAttributesEx path] |}).
Proof.
  intros [Hok Herr] Hshort.
  unfold RealDiskInterface.Stat, RealDiskInterface.Stat_win32.
  rewrite Hshort. fold (stat_trace_line path).
  cbn [printf GetFileAttributesEx SpiedEnv spy_on record_call inner calls].
  cbv zeta in Hok, Herr.
  destruct (GetFileAttributesEx path (printf (stat_trace_line path) k))
    as [[ok attrs] k'].
  simpl in Hok, Herr. subst ok.
  unfold record_call. cbn [negb GetLastError SpiedEnv inner calls snd].
  destruct Herr as [-> | ->]; reflexivity.
Qed.

Lemma Stat_win32_too_long path k :
  RealDiskInterface.too_long path = true ->
  let complaint :=
    {| format := "Stat(%s): Filename longer than %i characters";
       args := [ArgStr path; ArgInt MAX_PATH] |} in
  Stat_spied Win32 path (spy_on k) =
  ((-1)%Z,
   {| inner := Error complaint (printf (stat_trace_line path) k);
      calls := [EvPrintf (stat_trace_line path); EvError complaint] |}).
Proof.
  intros Hlong complaint.
  unfold RealDiskInterface.Stat, RealDiskInterface.Stat_win32.
  rewrite Hlong. reflexivity.
Qed.

End RealDiskFacts.

(** C2, at the input where it fails. [stat] succeeds on an existing file
    whose modification time is the epoch; [Stat] returns that time, 0,
    which is the value it returns for a path that does not exist, and not
    a value greater than zero. *)
Theorem C2_Stat_epoch_file_looks_missing :
  @stat _ (Scripted epoch_file) "old.txt" tt = ((0%Z, {| st_mtime := 0 |}), tt) /\
  @RealDiskInterface.Stat _ (SpiedEnv (Scripted epoch_file)) Posix "old.txt"
    (spy_on tt) =
  (0%Z, {| inner := tt; calls := [EvStat "old.txt"] |}).
Proof.
  split; [reflexivity|].
  apply (Stat_posix_success (Scripted epoch_file) "old.txt" tt 0
           {| st_mtime := 0 |} tt); [reflexivity | lia].
Qed.

(** What follows inside [MakeDirs]: an existing directory last modified
    at the epoch is taken for a missing one, its creation is attempted
    and fails, and so does [MakeDirs]. *)
Example MakeDirs_under_epoch_directory :
  @MakeDirs "/" _ (@RealDisk _ (SpiedEnv (Scripted epoch_file)) Posix)
    "out/main.o" (spy_on tt) =
  (false,
   {| inner := tt;
      calls := [EvStat "out"; EvMakeDir "out";
                EvError {| format := "mkdir(%s): %s";
                           args := [ArgStr "out"; ArgStr "File exists"] |}] |}).
Proof. vm_compute. reflexivity. Qed.

(** C3 (as the specification states it) fails where a path-length limit
    is enforced: a path of 261 characters that does not exist is answered
    with -1 and one diagnostic. *)
Lemma C3_counterexample_overlong_missing_path :
  @does_not_exist _ (Scripted nothing_there) Win32 overlong_path tt /\
  fst (@RealDiskInterface.Stat _ (SpiedEnv (Scripted nothing_there)) Win32
         overlong_path (spy_on tt)) = (-1)%Z /\
  List.length
    (diagnostics
       (calls (snd (@RealDiskInterface.Stat _ (SpiedEnv (Scripted nothing_there))
                      Win32 overlong_path (spy_on tt))))) = 1.
Proof.
  split; [split; [reflexivity | left; reflexivity]|].
  rewrite (Stat_win32_too_long (Scripted nothing_there) overlong_path tt)
    by (vm_compute; reflexivity).
  split; reflexivity.
Qed.

(** C3 (amended). For every path that does not exist and that passes the
    path-length precondition where one is enforced, [Stat] returns
    exactly 0 and hands no message to [Error]. *)
Theorem C3_Stat_missing_path :
  forall (K : Type) (E : Env K) (platform : Platform) (path : string) (k : K),
    does_not_exist platform path k ->
    (platform = Win32 -> RealDiskInterface.too_long path = false) ->
    fst (@RealDiskInterface.Stat _ (SpiedEnv E) platform path (spy_on k)) = 0%Z /\
    diagnostics
      (calls (snd (@RealDiskInterface.Stat _ (SpiedEnv E) platform path
                     (spy_on k)))) = [].
Proof.
  intros K E [|] path k Hmissing Hshort.
  - rewrite (Stat_win32_missing E path k Hmissing (Hshort eq_refl)).
    split; reflexivity.
  - rewrite (Stat_posix_missing E path k Hmissing). split; reflexivity.
Qed.

Lemma C3_witness_missing_file :
  (fst (@RealDiskInterface.Stat _ (SpiedEnv (Scripted nothing_there)) Posix
          "gone.txt" (spy_on tt)) = 0%Z /\
   diagnostics
     (calls (snd (@RealDiskInterface.Stat _ (SpiedEnv (Scripted nothing_there))
                    Posix "gone.txt" (spy_on tt)))) = []) /\
  (fst (@RealDiskInterface.Stat _ (SpiedEnv (Scripted nothing_there)) Win32
          "gone.txt" (spy_on tt)) = 0%Z /\
   diagnostics
     (calls (snd (@RealDiskInterface.Stat _ (SpiedEnv (Scripted nothing_there))
                    Win32 "gone.txt" (spy_on tt)))) = []).
Proof.
  split.
  - apply (C3_Stat_missing_path unit (Scripted nothing_there) Posix "gone.txt" tt).
    + split; [simpl; lia | reflexivity].
    + discriminate.
  - apply (C3_Stat_missing_path unit (Scripted nothing_there) Win32 "gone.txt" tt).
    + split; [reflexivity | left; reflexivity].
    + reflexivity.
Defined.

(** C8. Where the path-length limit is enforced, a non-empty path longer
    than [MAX_PATH] that does not begin with a backslash makes [Stat]
    return -1 after exactly two calls: the trace line and one message to
    [Error]. [GetFileAttributesEx] is not called. *)
Theorem C8_Stat_rejects_overlong_path :
  forall (K : Type) (E : Env K) (path : string) (k : K),
    path <> "" ->
    get 0 path <> Some backslash ->
    (Z.of_nat (String.length path) > MAX_PATH)%Z ->
    @RealDiskInterface.Stat _ (SpiedEnv E) Win32 path (spy_on k) =
    ((-1)%Z,
     {| inner :=
          Error {| format := "Stat(%s): Filename longer than %i characters";
                   args := [ArgStr path; ArgInt MAX_PATH] |}
                (printf (stat_trace_line path) k);
        calls :=
          [EvPrintf (stat_trace_line path);
           EvError {| format := "Stat(%s): Filename longer than %i characters";
                      args := [ArgStr path; ArgInt MAX_PATH] |}] |}).
Proof.
  intros K E path k Hne Hfirst Hlong.
  apply (Stat_win32_too_long E path k).
  unfold RealDiskInterface.too_long.
  apply StdString.empty_false in Hne. rewrite Hne.
  apply Z.gt_lt, Z.ltb_lt in Hlong. rewrite Z.gtb_ltb, Hlong.
  destruct (get 0 path) as [c|]; [|reflexivity].
  destruct (Ascii.eqb c backslash) eqn:Hc; [|reflexivity].
  apply Ascii.eqb_eq in Hc. congruence.
Qed.

Lemma C8_witness_overlong_existing_file :
  fst (@RealDiskInterface.Stat _ (SpiedEnv (Scripted all_fine)) Win32
         overlong_path (spy_on tt)) = (-1)%Z.
Proof.
  rewrite (C8_Stat_rejects_overlong_path unit (Scripted all_fine)
             overlong_path tt).
  - reflexivity.
  - discriminate.
  - discriminate.
  - vm_compute. reflexivity.
Defined.

(** C6. When the read shim reports the does-not-exist code, [ReadFile]
    returns empty content and leaves the error output empty, whatever it
    held before; the shim is the only call, so nothing reaches [Error]. *)
Theorem C6_ReadFile_swallows_missing_file :
  forall (K : Type) (E : Env K) (path err : string) (binary : bool)
         (k k' : K) (text : string),
    util_ReadFile path binary k = (ReadFailure ENOENT text, k') ->
    @RealDiskInterface.ReadFile _ (SpiedEnv E) path err binary (spy_on k) =
    (("", ""), {| inner := k'; calls := [EvReadFile path binary] |}).
Proof.
  intros K E path err binary k k' text Hread.
  unfold RealDiskInterface.ReadFile, RealDiskInterface.call_ReadFile.
  cbn [util_ReadFile SpiedEnv spy_on inner]. rewrite Hread. reflexivity.
Qed.

Lemma C6_witness_missing_file :
  @RealDiskInterface.ReadFile _ (SpiedEnv (Scripted nothing_there))
    "gone.txt" "stale error" false (spy_on tt) =
  (("", ""), {| inner := tt; calls := [EvReadFile "gone.txt" false] |}).
Proof.
  apply (C6_ReadFile_swallows_missing_file unit (Scripted nothing_there)
           "gone.txt" "stale error" false tt tt "No such file or directory").
  reflexivity.
Defined.

(** Any other failure of the shim leaves its text in the error output. *)
Example ReadFile_keeps_other_errors :
  fst (@RealDiskInterface.ReadFile _ (SpiedEnv (Scripted permission_denied))
         "secret.txt" "" false (spy_on tt)) = ("", "Permission denied").
Proof. reflexivity. Qed.

(** C7. [RemoveFile] has three outcomes. It returns 0 when [remove]
    succeeds and 1 when [remove] fails with [ENOENT], with no message to
    [Error] in either case; on any other failure it returns -1 after
    exactly one message to [Error]. *)
Theorem C7_RemoveFile_outcomes :
  forall (K : Type) (E : Env K) (path : string) (k k' : K) (ret : Z),
    remove path k = (ret, k') ->
    let result := @RealDiskInterface.RemoveFile _ (SpiedEnv E) path (spy_on k) in
    let complaint :=
      {| format := "remove(%s): %s";
         args := [ArgStr path; ArgStr (strerror (errno k'))] |} in
    ((0 <= ret)%Z ->
     result = (0%Z, {| inner := k'; calls := [EvRemove path] |})) /\
    ((ret < 0)%Z -> errno k' = ENOENT ->
     result = (1%Z, {| inner := k'; calls := [EvRemove path] |})) /\
    ((ret < 0)%Z -> errno k' <> ENOENT ->
     result = ((-1)%Z, {| inner := Error complaint k';
                          calls := [EvRemove path; EvError complaint] |})) /\
    (fst result = 0%Z \/ fst result = 1%Z \/ fst result = (-1)%Z).
Proof.
  intros K E path k k' ret Hremove result complaint.
  unfold result, RealDiskInterface.RemoveFile.
  cbn [remove SpiedEnv spy_on inner]. rewrite Hremove.
  unfold record_call. cbn [errno SpiedEnv inner calls app].
  destruct (ret <? 0)%Z eqn:Hneg;
    [apply Z.ltb_lt in Hneg | apply Z.ltb_ge in Hneg];
    destruct (errno k' =? ENOENT)%Z eqn:Herrno;
    [apply Z.eqb_eq in Herrno | apply Z.eqb_neq in Herrno
     | apply Z.eqb_eq in Herrno | apply Z.eqb_neq in Herrno];
    (split; [|split; [|split]]);
    try (intros; (lia || congruence || reflexivity));
    simpl; tauto.
Qed.

Lemma C7_witness_three_outcomes :
  fst (@RealDiskInterface.RemoveFile _ (SpiedEnv (Scripted all_fine))
         "a.o" (spy_on tt)) = 0%Z /\
  fst (@RealDiskInterface.RemoveFile _ (SpiedEnv (Scripted nothing_there))
         "a.o" (spy_on tt)) = 1%Z /\
  fst (@RealDiskInterface.RemoveFile _ (SpiedEnv (Scripted permission_denied))
         "a.o" (spy_on tt)) = (-1)%Z.
Proof.
  split; [|split].
  - rewrite (proj1 (C7_RemoveFile_outcomes unit (Scripted all_fine)
                      "a.o" tt tt 0 eq_refl)); [reflexivity | lia].
  - rewrite (proj1 (proj2 (C7_RemoveFile_outcomes unit (Scripted nothing_there)
                             "a.o" tt tt (-1) eq_refl)));
      [reflexivity | lia | reflexivity].
  - rewrite (proj1 (proj2 (proj2 (C7_RemoveFile_outcomes unit
                                    (Scripted permission_denied)
                                    "a.o" tt tt (-1) eq_refl))));
      [reflexivity | lia | discriminate].
Defined.

(** C9. [WriteFile] stops at the first step that fails, after exactly one
    message to [Error] about that step: [fopen] returning [NULL], then
    [fwrite] writing fewer bytes than the content holds, then [fclose]
    returning [EOF]; no later step is called. It returns true exactly
    when the three steps succeed, and then [Error] is not called. *)
Theorem C9_WriteFile_first_failure :
  forall (K : Type) (E : Env K) (path contents : string) (k : K),
    let result :=
      @RealDiskInterface.WriteFile _ (SpiedEnv E) path contents (spy_on k) in
    let length := N.of_nat (String.length contents) in
    (forall k1,
       fopen path "w" k = (None, k1) ->
       result =
       (false,
        {| inner := Error (WriteFile_complaint "create file." path k1) k1;
           calls := [EvFopen path "w";
                     EvError (WriteFile_complaint "create file." path k1)] |})) /\
    (forall fp k1 written k2,
       fopen path "w" k = (Some fp, k1) ->
       fwrite contents 1 length fp k1 = (written, k2) ->
       ((written < length)%N ->
        result =
        (false,
         {| inner := Error (WriteFile_complaint "write to the file." path k2) k2;
            calls := [EvFopen path "w"; EvFwrite contents 1 length fp;
                      EvError (WriteFile_complaint "write to the file." path k2)]
         |})) /\
       ((length <= written)%N ->
        forall ret k3,
          fclose fp k2 = (ret, k3) ->
          (ret = EOF ->
           result =
           (false,
            {| inner := Error (WriteFile_complaint "close the file." path k3) k3;
               calls := [EvFopen path "w"; EvFwrite contents 1 length fp;
                         EvFclose fp;
                         EvError (WriteFile_complaint "close the file." path k3)]
            |})) /\
          (ret <> EOF ->
           result =
           (true,
            {| inner := k3;
               calls := [EvFopen path "w"; EvFwrite contents 1 length fp;
                         EvFclose fp] |})))) /\
    (fst result = true <->
     exists fp,
       fst (fopen path "w" k) = Some fp /\
       let wrote := fwrite contents 1 length fp (snd (fopen path "w" k)) in
       (length <= fst wrote)%N /\ fst (fclose fp (snd wrote)) <> EOF).
Proof.
  intros K E path contents k result length.
  unfold result, RealDiskInterface.WriteFile.
  cbn [fopen SpiedEnv spy_on inner].
  destruct (fopen path "w" k) as [[fp|] k1] eqn:Hopen.
  - spy_step. fold length.
    destruct (fwrite contents 1 length fp k1) as [written k2] eqn:Hwrite.
    destruct (written <? length)%N eqn:Hshort;
      [apply N.ltb_lt in Hshort | apply N.ltb_ge in Hshort].
    + split; [discriminate|]. split.
      * intros fp' k1' written' k2' [= <- <-] Hwrite'.
        rewrite Hwrite in Hwrite'. injection Hwrite' as <- <-.
        split; [reflexivity | lia].
      * split; [discriminate|].
        intros (fp' & [= <-] & Hfull & _). cbv zeta in Hfull.
        cbn [snd] in Hfull. rewrite Hwrite in Hfull. simpl in Hfull. lia.
    + spy_step.
      destruct (fclose fp k2) as [ret k3] eqn:Hclose.
      destruct (ret =? EOF)%Z eqn:Heof;
        [apply Z.eqb_eq in Heof | apply Z.eqb_neq in Heof].
      * split; [discriminate|]. split.
        -- intros fp' k1' written' k2' [= <- <-] Hwrite'.
           rewrite Hwrite in Hwrite'. injection Hwrite' as <- <-.
           split; [lia|]. intros _ ret' k3' Hclose'.
           rewrite Hclose in Hclose'. injection Hclose' as <- <-.
           split; [reflexivity | congruence].
        -- split; [discriminate|].
           intros (fp' & [= <-] & _ & Hclosed). cbv zeta in Hclosed.
           cbn [snd] in Hclosed. rewrite Hwrite in Hclosed.
           cbn [snd] in Hclosed. rewrite Hclose in Hclosed. now simpl in Hclosed.
      * split; [discriminate|]. split.
        -- intros fp' k1' written' k2' [= <- <-] Hwrite'.
           rewrite Hwrite in Hwrite'. injection Hwrite' as <- <-.
           split; [lia|]. intros _ ret' k3' Hclose'.
           rewrite Hclose in Hclose'. injection Hclose' as <- <-.
           split; [congruence | reflexivity].
        -- split; [|reflexivity].
           intros _. exists fp. split; [reflexivity|]. cbv zeta.
           cbn [snd]. rewrite Hwrite. cbn [fst snd]. rewrite Hclose.
           split; [exact Hshort | exact Heof].
  - split.
    + intros k1' [= <-]. reflexivity.
    + split; [discriminate|].
      split; [discriminate|].
      intros (fp' & Hfp & _). discriminate.
Qed.

Lemma C9_witness_complete_write :
  @RealDiskInterface.WriteFile _ (SpiedEnv (Scripted all_fine))
    "out.txt" "hello" (spy_on tt) =
  (true,
   {| inner := tt;
      calls := [EvFopen "out.txt" "w"; EvFwrite "hello" 1 5 3%N; EvFclose 3%N] |}).
Proof.
  destruct (C9_WriteFile_first_failure unit (Scripted all_fine)
              "out.txt" "hello" tt) as (_ & Hsteps & _).
  destruct (Hsteps 3%N tt 5%N tt eq_refl eq_refl) as [_ Hfull].
  apply (Hfull ltac:(simpl; lia) 0%Z tt eq_refl). discriminate.
Defined.

(** A short write is a failure, and [fclose] is not reached. *)
Example WriteFile_short_write :
  @RealDiskInterface.WriteFile _ (SpiedEnv (Scripted all_fine))
    "out.txt" "hello, world" (spy_on tt) =
  (false,
   {| inner := tt;
      calls := [EvFopen "out.txt" "w"; EvFwrite "hello, world" 1 12 3%N;
                EvError {| format := "WriteFile(%s): Unable to write to the file. %s";
                           args := [ArgStr "out.txt";
                                    ArgStr "Input/output error"] |}] |}).
Proof. reflexivity. Qed.

(** * Further properties of the code *)

(** ** The shape of [DirName]'s result *)

Section DirNameShape.

Variable DIR_SEP : string.

(** Every character is a separator. *)
Fixpoint all_separators (s : string) : bool :=
  match s with
  | EmptyString => true
  | String c rest => is_separator DIR_SEP c && all_separators rest
  end.

(** The last character is a separator. *)
Fixpoint ends_with_separator (s : string) : bool :=
  match s with
  | EmptyString => false
  | String c EmptyString => is_separator DIR_SEP c
  | String _ rest => ends_with_separator rest
  end.

Lemma find_last_of_from_app chars a :
  forall b pos,
    StdString.find_last_of_from pos (a ++ b) chars =
    match StdString.find_last_of_from (pos + String.length a) b chars with
    | Some i => Some i
    | None => StdString.find_last_of_from pos a chars
    end.
Proof.
  induction a as [|c a IH]; intros b pos; simpl.
  - rewrite Nat.add_0_r.
    destruct (StdString.find_last_of_from pos b chars); reflexivity.
  - rewrite IH. rewrite <- Nat.add_succ_comm.
    destruct (StdString.find_last_of_from (S pos + String.length a) b chars);
      reflexivity.
Qed.

Lemma find_last_of_from_cons chars c rest pos :
  StdString.find_last_of_from pos (String c rest) chars =
  match StdString.find_last_of_from (S pos) rest chars with
  | Some i => Some i
  | None => match StdString.find chars c with
            | Some _ => Some pos
            | None => None
            end
  end.
Proof. reflexivity. Qed.

Lemma find_last_of_from_all_separators seps :
  forall pos,
    all_separators seps = true -> seps <> "" ->
    StdString.find_last_of_from pos seps DIR_SEP =
    Some (pos + String.length seps - 1).
Proof.
  induction seps as [|c rest IH]; intros pos Hall Hne; [congruence|].
  simpl in Hall. apply andb_true_iff in Hall as [Hc Hrest].
  destruct rest as [|c' rest'].
  - simpl. unfold is_separator, kPathSeparators in Hc.
    destruct (StdString.find DIR_SEP c); [|discriminate].
    f_equal. lia.
  - rewrite find_last_of_from_cons.
    rewrite (IH (S pos) Hrest) by discriminate.
    f_equal. simpl. lia.
Qed.

Lemma all_separators_get s :
  forall n,
    all_separators s = true -> n < String.length s ->
    exists c, get n s = Some c /\ is_separator DIR_SEP c = true.
Proof.
  induction s as [|c rest IH]; intros n Hall Hn; simpl in Hn; [lia|].
  simpl in Hall. apply andb_true_iff in Hall as [Hc Hrest].
  destruct n as [|n]; simpl.
  - now exists c.
  - apply IH; [exact Hrest | lia].
Qed.

Lemma ends_with_separator_get s :
  s <> "" -> ends_with_separator s = false ->
  exists c, get (pred (String.length s)) s = Some c /\
            is_separator DIR_SEP c = false.
Proof.
  induction s as [|c rest IH]; intros Hne Hend; [congruence|].
  destruct rest as [|c' rest'].
  - now exists c.
  - destruct IH as (d & Hget & Hd); [discriminate | exact Hend |].
    exists d. split; [exact Hget | exact Hd].
Qed.

Lemma ends_with_separator_cons c s :
  s <> "" -> ends_with_separator (String c s) = ends_with_separator s.
Proof. destruct s; [congruence | reflexivity]. Qed.

Lemma substr0_app a : forall b, StdString.substr0 (a ++ b) (String.length a) = a.
Proof.
  unfold StdString.substr0.
  induction a as [|c a IH]; intros b; simpl.
  - destruct b; reflexivity.
  - now rewrite IH.
Qed.

Lemma skip_separators_over dir seps base n :
  all_separators seps = true ->
  n <= String.length seps ->
  skip_separators DIR_SEP (dir ++ seps ++ base) (String.length dir + n) =
  skip_separators DIR_SEP (dir ++ seps ++ base) (String.length dir).
Proof.
  intros Hall. induction n as [|n IH]; intros Hn.
  - now rewrite Nat.add_0_r.
  - rewrite Nat.add_succ_r. cbn [skip_separators].
    destruct (all_separators_get seps n Hall) as (c & Hget & Hc); [lia|].
    rewrite (append_correct1 seps base n) in Hget by lia.
    rewrite (append_correct2 dir (seps ++ base) n) in Hget.
    rewrite (Nat.add_comm n) in Hget. rewrite Hget, Hc.
    apply IH. lia.
Qed.

Lemma skip_separators_stop dir rest :
  ends_with_separator dir = false ->
  skip_separators DIR_SEP (dir ++ rest) (String.length dir) = String.length dir.
Proof.
  intros Hend. destruct (string_dec dir "") as [-> | Hne]; [reflexivity|].
  destruct (ends_with_separator_get dir Hne Hend) as (c & Hget & Hc).
  destruct dir as [|d dir']; [congruence|].
  cbn [String.length pred] in *. cbn [skip_separators].
  rewrite <- (append_correct1 (String d dir') rest (String.length dir'))
    by (simpl; lia).
  now rewrite Hget, Hc.
Qed.

(** [DirName] undoes the joining of a directory and a file name. *)
Lemma DirName_of_join dir seps base :
  ends_with_separator dir = false ->
  seps <> "" ->
  all_separators seps = true ->
  has_separator DIR_SEP base = false ->
  DirName DIR_SEP (dir ++ seps ++ base) = dir.
Proof.
  intros Hend Hne Hall Hbase.
  unfold DirName, StdString.find_last_of, kPathSeparators.
  rewrite find_last_of_from_app, find_last_of_from_app.
  pose proof (fun pos => proj2 (find_last_of_from_None DIR_SEP base pos) Hbase)
    as Hnone.
  unfold kPathSeparators in Hnone. rewrite Hnone.
  rewrite (find_last_of_from_all_separators seps _ Hall Hne).
  simpl Nat.add.
  assert (String.length seps <> 0) as Hlen by (destruct seps; simpl; congruence).
  replace (String.length dir + String.length seps - 1)
    with (String.length dir + (String.length seps - 1)) by lia.
  rewrite (skip_separators_over dir seps base _ Hall) by lia.
  rewrite (skip_separators_stop dir (seps ++ base) Hend).
  apply substr0_app.
Qed.

(** A path that contains a separator is a directory part that does not
    end in a separator, a run of separators and a last component. *)
Lemma path_split path :
  has_separator DIR_SEP path = true ->
  exists dir seps base,
    path = dir ++ seps ++ base /\
    ends_with_separator dir = false /\
    seps <> "" /\
    all_separators seps = true /\
    has_separator DIR_SEP base = false.
Proof.
  induction path as [|c rest IH]; intros Hsep; [discriminate|].
  simpl in Hsep.
  destruct (has_separator DIR_SEP rest) eqn:Hrest.
  - destruct (IH eq_refl) as (dir & seps & base & -> & Hend & Hne & Hall & Hbase).
    destruct dir as [|d dir'].
    + destruct (is_separator DIR_SEP c) eqn:Hc.
      * exists "", (String c seps), base. simpl. rewrite Hc.
        repeat split; (reflexivity || discriminate || assumption).
      * exists (String c ""), seps, base. simpl.
        repeat split; assumption.
    + exists (String c (String d dir')), seps, base.
      repeat split; assumption.
  - rewrite orb_false_r in Hsep.
    exists "", (String c ""), rest. simpl. rewrite Hsep.
    repeat split; (reflexivity || discriminate || assumption).
Qed.

End DirNameShape.

(** X1. Joining a directory that does not end in a separator, a
    non-empty run of separators and a name without separator, then
    taking [DirName], gives the directory back. *)
Theorem X1_DirName_undoes_join :
  forall (DIR_SEP dir seps base : string),
    ends_with_separator DIR_SEP dir = false ->
    seps <> "" ->
    all_separators DIR_SEP seps = true ->
    has_separator DIR_SEP base = false ->
    DirName DIR_SEP (dir ++ seps ++ base) = dir.
Proof.
  intros DIR_SEP dir seps base Hend Hne Hall Hbase.
  now apply DirName_of_join.
Qed.

Lemma X1_witness_windows_separators :
  DirName "\/" ("src\lib" ++ "\/" ++ "util.cc") = "src\lib".
Proof.
  apply (X1_DirName_undoes_join "\/" "src\lib" "\/" "util.cc");
    (reflexivity || discriminate).
Defined.

(** X2. For a path that contains a separator, [DirName] never ends in a
    separator, and the path is [DirName] followed by a non-empty run of
    separators and a last component free of separators. *)
Theorem X2_DirName_splits_path :
  forall (DIR_SEP path : string),
    has_separator DIR_SEP path = true ->
    ends_with_separator DIR_SEP (DirName DIR_SEP path) = false /\
    exists seps base,
      path = DirName DIR_SEP path ++ seps ++ base /\
      seps <> "" /\
      all_separators DIR_SEP seps = true /\
      has_separator DIR_SEP base = false.
Proof.
  intros DIR_SEP path Hsep.
  destruct (path_split DIR_SEP path Hsep)
    as (dir & seps & base & -> & Hend & Hne & Hall & Hbase).
  rewrite (DirName_of_join DIR_SEP dir seps base Hend Hne Hall Hbase).
  split; [exact Hend|].
  exists seps, base. repeat split; assumption.
Qed.

Lemma X2_witness_doubled_separator :
  ends_with_separator "/" (DirName "/" "a/b//c.txt") = false /\
  exists seps base,
    "a/b//c.txt" = DirName "/" "a/b//c.txt" ++ seps ++ base /\
    seps <> "" /\
    all_separators "/" seps = true /\
    has_separator "/" base = false.
Proof.
  apply (X2_DirName_splits_path "/" "a/b//c.txt"). reflexivity.
Defined.

(** ** The calls of [MakeDirs], whatever the implementation *)

Lemma makedir_calls_app l m :
  makedir_calls (l ++ m) = (makedir_calls l ++ makedir_calls m)%list.
Proof.
  induction l as [|[d|d] l IH]; simpl; [reflexivity | exact IH | now rewrite IH].
Qed.

Lemma makedir_calls_stats l : makedir_calls (map CallStat l) = [].
Proof. induction l; simpl; auto. Qed.

Lemma makedir_calls_makedirs l : makedir_calls (map CallMakeDir l) = l.
Proof. induction l as [|d l IH]; simpl; [reflexivity | now rewrite IH]. Qed.

Section MakeDirsTrace.

Variable DIR_SEP : string.
Context {St : Type} (D : DiskInterface St).

Local Abbreviation DirName := (DirName DIR_SEP).
Local Abbreviation ancestors := (ancestors DIR_SEP).
Local Abbreviation MakeDirs_spied := (@MakeDirs DIR_SEP _ (Spied D)).
Local Abbreviation MakeDirs := (@MakeDirs DIR_SEP _ D).

(** The calls [MakeDirs path] makes from the state [s]. *)
Definition MakeDirs_calls (path : string) (s : St) : list Call :=
  calls (snd (MakeDirs_spied path (spy_on s))).

(** Recording changes neither the result nor the final state, and the
    calls made do not depend on the calls recorded before. *)
Lemma MakeDirs_Spied_run path :
  forall (s : St) (log : list Call),
    MakeDirs_spied path {| inner := s; calls := log |} =
    (fst (MakeDirs path s),
     {| inner := snd (MakeDirs path s);
        calls := (log ++ MakeDirs_calls path s)%list |}).
Proof.
  unfold MakeDirs_calls.
  induction path as [path E | path E IH] using (DirName_ind DIR_SEP);
    intros s log.
  - rewrite (MakeDirs_root DIR_SEP (Spied D) _ _ E).
    rewrite (MakeDirs_root DIR_SEP (Spied D) _ _ E).
    rewrite (MakeDirs_root DIR_SEP D _ _ E). simpl. now rewrite app_nil_r.
  - destruct (@Stat _ D (DirName path) s) as [mtime s1] eqn:HS.
    rewrite (MakeDirs_Spied_step DIR_SEP D path {| inner := s; calls := log |}
               _ _ E HS).
    rewrite (MakeDirs_Spied_step DIR_SEP D path (spy_on s) _ _ E HS).
    rewrite (MakeDirs_body DIR_SEP path s).
    cbv zeta. rewrite (proj2 (StdString.empty_false _) E), HS.
    unfold record_call. cbn [inner calls spy_on app].
    destruct (mtime <? 0)%Z; [reflexivity|].
    destruct (mtime >? 0)%Z; [reflexivity|].
    rewrite (IH s1 (log ++ [CallStat (DirName path)])%list).
    rewrite (IH s1 [CallStat (DirName path)]).
    destruct (MakeDirs (DirName path) s1) as [[] s2]; cbn [fst snd negb inner calls].
    + destruct (@MakeDir _ D (DirName path) s2) as [ok s3].
      cbn [fst snd inner calls]. do 2 f_equal.
      simpl. now rewrite <- !app_assoc.
    + do 2 f_equal. simpl. now rewrite <- !app_assoc.
Qed.

Lemma MakeDirs_calls_root path s :
  DirName path = "" -> MakeDirs_calls path s = [].
Proof.
  intros E. unfold MakeDirs_calls.
  now rewrite (MakeDirs_root DIR_SEP (Spied D) _ _ E).
Qed.

(** One level of [MakeDirs]: its result, final state and calls in terms
    of those of the recursive call. *)
Lemma MakeDirs_level path s mtime s1 :
  DirName path <> "" ->
  @Stat _ D (DirName path) s = (mtime, s1) ->
  let dir := DirName path in
  ((mtime < 0)%Z ->
   MakeDirs path s = (false, s1) /\ MakeDirs_calls path s = [CallStat dir]) /\
  ((mtime > 0)%Z ->
   MakeDirs path s = (true, s1) /\ MakeDirs_calls path s = [CallStat dir]) /\
  (mtime = 0%Z ->
   (fst (MakeDirs dir s1) = false ->
    MakeDirs path s = (false, snd (MakeDirs dir s1)) /\
    MakeDirs_calls path s = CallStat dir :: MakeDirs_calls dir s1) /\
   (fst (MakeDirs dir s1) = true ->
    MakeDirs path s = @MakeDir _ D dir (snd (MakeDirs dir s1)) /\
    MakeDirs_calls path s =
    (CallStat dir :: MakeDirs_calls dir s1 ++ [CallMakeDir dir])%list)).
Proof.
  intros E HS dir.
  assert (MakeDirs_calls path s = calls (snd (MakeDirs_spied path (spy_on s))))
    as Hcalls by reflexivity.
  rewrite Hcalls. clear Hcalls.
  rewrite (MakeDirs_Spied_step DIR_SEP D path (spy_on s) _ _ E HS).
  rewrite (MakeDirs_body DIR_SEP path s).
  cbv zeta. rewrite (proj2 (StdString.empty_false _) E), HS. fold dir.
  unfold record_call. cbn [inner calls spy_on app].
  rewrite (MakeDirs_Spied_run dir s1 [CallStat dir]).
  split; [|split].
  - intros Hneg. apply Z.ltb_lt in Hneg. rewrite Hneg. split; reflexivity.
  - intros Hpos.
    destruct (mtime <? 0)%Z eqn:Hneg; [apply Z.ltb_lt in Hneg; lia|].
    apply Z.gt_lt, Z.ltb_lt in Hpos. rewrite Z.gtb_ltb, Hpos.
    split; reflexivity.
  - intros ->. change (0 <? 0)%Z with false. change (0 >? 0)%Z with false.
    cbv iota.
    destruct (MakeDirs dir s1) as [success s2]. cbn [fst snd inner calls].
    split; intros ->; cbn [negb]; [split; reflexivity|].
    destruct (@MakeDir _ D dir s2) as [ok s3]. split; reflexivity.
Qed.

Lemma ancestors_cons_inv path d rest :
  ancestors path = d :: rest ->
  DirName path = d /\ d <> "" /\ ancestors d = rest.
Proof.
  intros H. rewrite ancestors_body in H.
  destruct (StdString.empty (DirName path)) eqn:E; [discriminate|].
  injection H as <- <-. apply StdString.empty_false in E. auto.
Qed.

End MakeDirsTrace.

Lemma firstn_rev_firstn_all {A : Type} (l : list A) k :
  k <= List.length l -> firstn k (rev (firstn k l)) = rev (firstn k l).
Proof.
  intros Hk. apply firstn_all2. rewrite length_rev, length_firstn. lia.
Qed.

Lemma firstn_rev_firstn_cons {A : Type} (x : A) (l : list A) j k :
  j <= k -> k <= List.length l ->
  firstn j (rev (firstn (S k) (x :: l))) = firstn j (rev (firstn k l)).
Proof.
  intros Hj Hk. simpl. rewrite firstn_app.
  rewrite length_rev, length_firstn.
  replace (j - Nat.min k (List.length l)) with 0 by lia.
  simpl. now rewrite app_nil_r.
Qed.

(** X3. Whatever the implementation answers, [MakeDirs] first calls
    [Stat] on the first [k] ancestors of the path, leaf first, and then
    calls [MakeDir], root first, on a run of the [k'] deepest of them,
    where [k'] is [k] or [k - 1]; when it succeeds the run is complete.
    So every directory it asks to create was queried before, and no
    query follows a creation. *)
Theorem X3_MakeDirs_call_shape :
  forall (DIR_SEP : string) (St : Type) (D : DiskInterface St)
         (path : string) (s : St),
  exists k k' j,
    j <= k' /\ k' <= k /\ k <= S k' /\
    k <= List.length (ancestors DIR_SEP path) /\
    MakeDirs_calls DIR_SEP D path s =
    (map CallStat (firstn k (ancestors DIR_SEP path))
       ++ map CallMakeDir
            (firstn j (rev (firstn k' (ancestors DIR_SEP path)))))%list /\
    (fst (@MakeDirs DIR_SEP _ D path s) = true -> j = k').
Proof.
  intros DIR_SEP St D path.
  induction path as [path E | path E IH] using (DirName_ind DIR_SEP); intros s.
  - exists 0, 0, 0. rewrite (MakeDirs_calls_root DIR_SEP D _ _ E).
    repeat split; lia.
  - rewrite (ancestors_step DIR_SEP _ E).
    set (dir := DirName DIR_SEP path) in *.
    destruct (@Stat _ D dir s) as [mtime s1] eqn:HS.
    destruct (MakeDirs_level DIR_SEP D path s _ _ E HS) as (Hneg & Hpos & Hzero).
    fold dir in Hneg, Hpos, Hzero.
    destruct (Z.lt_trichotomy mtime 0) as [Hlt | [-> | Hgt]].
    + destruct (Hneg Hlt) as [_ ->]. exists 1, 0, 0. simpl.
      repeat split; lia.
    + destruct (IH s1) as (k & k' & j & Hj & Hk' & Hk & Hlen & Hcalls & Hdone).
      destruct (Hzero eq_refl) as [Hfail Hok].
      destruct (fst (MakeDirs DIR_SEP dir s1)) eqn:Hrec.
      * destruct (Hok eq_refl) as [_ ->]. rewrite Hcalls, (Hdone eq_refl).
        exists (S k), (S k'), (S k').
        repeat split; simpl List.length; try lia.
        rewrite (firstn_rev_firstn_all _ k') by lia.
        rewrite (firstn_all2 (n := S k')).
        -- simpl. rewrite map_app. simpl. now rewrite <- !app_assoc.
        -- rewrite length_rev, length_firstn. simpl. lia.
      * destruct (Hfail eq_refl) as [Hres ->]. rewrite Hcalls.
        exists (S k), (S k'), j.
        repeat split; simpl List.length; try lia.
        -- rewrite (firstn_rev_firstn_cons dir _ j k') by lia. reflexivity.
        -- rewrite Hres. discriminate.
    + destruct (Hpos (Z.lt_gt _ _ Hgt)) as [_ ->]. exists 1, 0, 0. simpl.
      repeat split; lia.
Qed.




(** X5. On a filesystem where the nearest existing ancestor of the path
    is [present] and the ancestors below it are missing, [MakeDirs]
    succeeds: it queries the missing ancestors and [present], leaf
    first, creates the missing ones root first, and touches no ancestor
    above [present]. Afterwards exactly the missing ancestors have been
    added to the tree. *)
Theorem X5_MakeDirs_creates_only_missing :
  forall (DIR_SEP : string) (St : Type) (D : DiskInterface St)
         (exists_dir : St -> string -> Prop),
    Filesystem DIR_SEP D exists_dir ->
    forall (missing : list string) (present : string) (above : list string)
           (path : string) (s : St),
      ancestors DIR_SEP path = (missing ++ present :: above)%list ->
      (forall d, In d missing -> ~ exists_dir s d) ->
      exists_dir s present ->
      fst (@MakeDirs DIR_SEP _ D path s) = true /\
      MakeDirs_calls DIR_SEP D path s =
      (map CallStat (missing ++ [present])
         ++ map CallMakeDir (rev missing))%list /\
      forall d,
        exists_dir (snd (@MakeDirs DIR_SEP _ D path s)) d <->
        In d missing \/ exists_dir s d.
Proof.
  intros DIR_SEP St D exists_dir FS missing present above.
  induction missing as [|m ms IH]; intros path s Hanc Habs Hpres;
    simpl in Hanc; pose proof Hanc as Hanc';
    apply ancestors_cons_inv in Hanc' as (Hdir & Hne & Hrest);
    rewrite <- Hdir in Hne;
    pose proof (Stat_view FS (DirName DIR_SEP path) s) as Hview;
    pose proof (Stat_present FS (DirName DIR_SEP path) s) as Hp;
    pose proof (Stat_absent FS (DirName DIR_SEP path) s) as Ha;
    destruct (@Stat _ D (DirName DIR_SEP path) s) as [mtime s1] eqn:HS;
    destruct (MakeDirs_level DIR_SEP D path s _ _ Hne HS) as (_ & Hpos & Hz);
    rewrite Hdir in *; simpl in Hview, Hp, Ha.
  - apply Hp, Z.lt_gt in Hpres. destruct (Hpos Hpres) as [-> ->].
    split; [reflexivity|]. split; [reflexivity|].
    intros d. simpl. rewrite Hview. tauto.
  - assert (mtime = 0%Z) as -> by (apply Ha, Habs; now left).
    destruct (IH m s1 Hrest) as (Hrec & Hcalls & Hview2).
    { intros d Hd Hex. apply Hview in Hex. apply (Habs d); [now right | exact Hex]. }
    { now apply Hview. }
    destruct (proj2 (Hz eq_refl) Hrec) as [Hres ->].
    set (s2 := snd (@MakeDirs DIR_SEP _ D m s1)) in *.
    assert (~ exists_dir s2 m) as Hfresh.
    { intros Hex. apply Hview2 in Hex. destruct Hex as [Hin | Hex].
      - assert (In m (ancestors DIR_SEP m)) as Hself
          by (rewrite Hrest; apply in_or_app; now left).
        apply ancestors_shorter in Hself. lia.
      - apply Hview in Hex. apply (Habs m); [now left | exact Hex]. }
    assert (DirName DIR_SEP m = "" \/ exists_dir s2 (DirName DIR_SEP m))
      as Hparent.
    { right. apply Hview2. destruct ms as [|x ms'].
      - apply ancestors_cons_inv in Hrest as (-> & _). right. now apply Hview.
      - apply ancestors_cons_inv in Hrest as (-> & _). left. now left. }
    pose proof (MakeDir_ok FS m s2 Hfresh Hparent) as Hok.
    pose proof (fun e => MakeDir_view FS m s2 e Hok) as Hview3.
    rewrite Hres. split; [exact Hok|]. split.
    + rewrite Hcalls. simpl. rewrite !map_app. simpl.
      now rewrite <- !app_assoc.
    + intros d. rewrite Hview3, Hview2, Hview. simpl. intuition congruence.
Qed.

Lemma X5_witness_existing_top_directory :
  fst (@MakeDirs "/" _ (MemDisk "/") "a/b/c/file.txt" ["a"]) = true /\
  MakeDirs_calls "/" (MemDisk "/") "a/b/c/file.txt" ["a"] =
  (map CallStat (["a/b/c"; "a/b"] ++ ["a"])
     ++ map CallMakeDir (rev ["a/b/c"; "a/b"]))%list /\
  forall d,
    In d (snd (@MakeDirs "/" _ (MemDisk "/") "a/b/c/file.txt" ["a"])) <->
    In d ["a/b/c"; "a/b"] \/ In d ["a"].
Proof.
  apply (X5_MakeDirs_creates_only_missing "/" _ (MemDisk "/")
           (fun dirs d => In d dirs) (MemDisk_Filesystem "/")
           ["a/b/c"; "a/b"] "a" [] "a/b/c/file.txt" ["a"]).
  - vm_compute. reflexivity.
  - intros d [<- | [<- | []]] [H | []]; discriminate.
  - now left.
Defined.

(** X6. On a filesystem, when [MakeDirs] succeeds the parent directory
    of the path exists afterwards, and the tree has changed by exactly
    the directories [MakeDirs] called [MakeDir] on: nothing that existed
    is gone and nothing else has appeared. *)
Theorem X6_MakeDirs_success_effect :
  forall (DIR_SEP : string) (St : Type) (D : DiskInterface St)
         (exists_dir : St -> string -> Prop) (path : string) (s : St),
    Filesystem DIR_SEP D exists_dir ->
    fst (@MakeDirs DIR_SEP _ D path s) = true ->
    (DirName DIR_SEP path = "" \/
     exists_dir (snd (@MakeDirs DIR_SEP _ D path s)) (DirName DIR_SEP path)) /\
    forall d,
      exists_dir (snd (@MakeDirs DIR_SEP _ D path s)) d <->
      exists_dir s d \/ In d (makedir_calls (MakeDirs_calls DIR_SEP D path s)).
Proof.
  intros DIR_SEP St D exists_dir path s FS Hok.
  split; [now apply (MakeDirs_success_parent DIR_SEP D exists_dir FS)|].
  revert s Hok.
  induction path as [path E | path E IH] using (DirName_ind DIR_SEP);
    intros s Hok d.
  - rewrite (MakeDirs_root DIR_SEP D _ _ E).
    rewrite (MakeDirs_calls_root DIR_SEP D _ _ E). simpl. tauto.
  - pose proof (Stat_view FS (DirName DIR_SEP path) s) as Hview.
    destruct (@Stat _ D (DirName DIR_SEP path) s) as [mtime s1] eqn:HS.
    simpl in Hview.
    destruct (MakeDirs_level DIR_SEP D path s _ _ E HS) as (Hneg & Hpos & Hz).
    destruct (Z.lt_trichotomy mtime 0) as [Hlt | [-> | Hgt]].
    + destruct (Hneg Hlt) as [Hres _]. rewrite Hres in Hok. discriminate.
    + destruct (fst (@MakeDirs DIR_SEP _ D (DirName DIR_SEP path) s1)) eqn:Hrec.
      * destruct (proj2 (Hz eq_refl) eq_refl) as [Hres ->].
        rewrite Hres in Hok |- *.
        rewrite (MakeDir_view FS _ _ d Hok), (IH s1 Hrec d), Hview.
        cbn [makedir_calls]. rewrite makedir_calls_app. cbn [makedir_calls].
        rewrite in_app_iff. cbn [In]. intuition congruence.
      * destruct (proj1 (Hz eq_refl) eq_refl) as [Hres _].
        rewrite Hres in Hok. discriminate.
    + destruct (Hpos (Z.lt_gt _ _ Hgt)) as [-> ->]. simpl.
      rewrite Hview. tauto.
Qed.

Lemma X6_witness_fresh_tree :
  (DirName "/" "a/b/c/file.txt" = "" \/
   In (DirName "/" "a/b/c/file.txt")
      (snd (@MakeDirs "/" _ (MemDisk "/") "a/b/c/file.txt" []))) /\
  forall d,
    In d (snd (@MakeDirs "/" _ (MemDisk "/") "a/b/c/file.txt" [])) <->
    In d [] \/
    In d (makedir_calls (MakeDirs_calls "/" (MemDisk "/") "a/b/c/file.txt" [])).
Proof.
  apply (X6_MakeDirs_success_effect "/" _ (MemDisk "/")
           (fun dirs d => In d dirs) "a/b/c/file.txt" []
           (MemDisk_Filesystem "/")).
  vm_compute. reflexivity.
Defined.

(** ** Diagnostics of [RealDiskInterface] *)

Lemma diagnostics_app l m :
  diagnostics (l ++ m) = (diagnostics l ++ diagnostics m)%list.
Proof.
  induction l as [|e l IH]; [reflexivity|].
  destruct e; simpl; rewrite IH; reflexivity.
Qed.

Section RealDiskDiagnostics.

Context {K : Type} (E : Env K).

(** Close a goal [exists l, calls _ = calls w ++ l /\ _] once the run
    has been reduced to nested [record_call]s. *)
Ltac name_new_calls :=
  cbn [printf Error SpiedEnv fst snd];
  unfold record_call; cbn [inner calls fst snd];
  eexists; split;
  [ rewrite <- ?app_assoc; reflexivity
  | simpl; repeat split; try (intros; (lia || congruence || reflexivity)) ].

(** From any recorded state, [Stat] hands at most one message to
    [Error], and only on its way to returning -1. *)
Lemma Stat_new_diagnostics platform path (w : Spy Event K) :
  exists l,
    calls (snd (@RealDiskInterface.Stat _ (SpiedEnv E) platform path w)) =
    (calls w ++ l)%list /\
    List.length (diagnostics l) <= 1 /\
    (diagnostics l <> [] ->
     fst (@RealDiskInterface.Stat _ (SpiedEnv E) platform path w) = (-1)%Z).
Proof.
  destruct platform; unfold RealDiskInterface.Stat.
  - unfold RealDiskInterface.Stat_win32.
    destruct (RealDiskInterface.too_long path); [name_new_calls|].
    cbn [printf GetFileAttributesEx SpiedEnv]. unfold record_call.
    cbn [inner calls].
    destruct (GetFileAttributesEx path (printf _ (inner w))) as [[[] attrs] k1];
      cbn [negb]; [name_new_calls|].
    cbn [GetLastError SpiedEnv inner].
    destruct ((GetLastError k1 =? ERROR_FILE_NOT_FOUND)%Z
              || (GetLastError k1 =? ERROR_PATH_NOT_FOUND)%Z);
      [name_new_calls|].
    cbn [GetLastErrorString SpiedEnv inner].
    destruct (GetLastErrorString k1) as [text k2]. name_new_calls.
  - unfold RealDiskInterface.Stat_posix. cbn [stat SpiedEnv].
    destruct (stat path (inner w)) as [[ret st] k1].
    destruct (ret <? 0)%Z; [|name_new_calls].
    unfold record_call. cbn [errno SpiedEnv inner].
    destruct (errno k1 =? ENOENT)%Z; name_new_calls.
Qed.

(** From any recorded state, [MakeDir] hands one message to [Error] when
    it fails and none when it succeeds. *)
Lemma MakeDir_new_diagnostics path (w : Spy Event K) :
  exists l,
    calls (snd (@RealDiskInterface.MakeDir _ (SpiedEnv E) path w)) =
    (calls w ++ l)%list /\
    List.length (diagnostics l) =
    if fst (@RealDiskInterface.MakeDir _ (SpiedEnv E) path w) then 0 else 1.
Proof.
  unfold RealDiskInterface.MakeDir. cbn [util_MakeDir SpiedEnv].
  destruct (util_MakeDir path (inner w)) as [ret k1].
  destruct (ret <? 0)%Z; cbn [Error SpiedEnv fst snd];
    unfold record_call; cbn [inner calls fst snd];
    eexists; (split; [rewrite <- ?app_assoc; reflexivity | reflexivity]).
Qed.

End RealDiskDiagnostics.

Section MakeDirsOnRealDisk.

Variable DIR_SEP : string.
Context {K : Type} (E : Env K) (platform : Platform).

Local Abbreviation RecordedDisk := (@RealDisk _ (SpiedEnv E) platform).

(** [MakeDirs] over [RealDiskInterface], from any recorded state: at most
    one message reaches [Error], and none when it succeeds. *)
Lemma MakeDirs_RealDisk_new_diagnostics path :
  forall (w : Spy Event K),
  exists l,
    calls (snd (@MakeDirs DIR_SEP _ RecordedDisk path w)) = (calls w ++ l)%list /\
    List.length (diagnostics l) <= 1 /\
    (fst (@MakeDirs DIR_SEP _ RecordedDisk path w) = true ->
     diagnostics l = []).
Proof.
  induction path as [path Eroot | path Edir IH] using (DirName_ind DIR_SEP);
    intros w.
  - rewrite (MakeDirs_root DIR_SEP RecordedDisk _ _ Eroot).
    exists []. simpl. rewrite app_nil_r. auto.
  - rewrite MakeDirs_body. cbv zeta.
    rewrite (proj2 (StdString.empty_false _) Edir).
    cbn [Stat MakeDir RealDisk].
    destruct (Stat_new_diagnostics E platform (DirName DIR_SEP path) w)
      as (l1 & Hc1 & Hlen1 & Hneg1).
    destruct (@RealDiskInterface.Stat _ (SpiedEnv E) platform
                (DirName DIR_SEP path) w) as [mtime w1].
    cbn [fst snd] in Hc1, Hneg1.
    destruct (mtime <? 0)%Z eqn:Hlt.
    { exists l1. cbn [fst snd].
      split; [assumption|]. split; [assumption | discriminate]. }
    assert (diagnostics l1 = []) as Hquiet.
    { destruct (diagnostics l1) as [|m rest] eqn:Hd; [reflexivity|].
      rewrite Hneg1 in Hlt by discriminate. discriminate. }
    destruct (mtime >? 0)%Z.
    { exists l1. cbn [fst snd].
      split; [assumption|]. split; [assumption | now intros _]. }
    destruct (IH w1) as (l2 & Hc2 & Hlen2 & Hok2).
    destruct (@MakeDirs DIR_SEP _ RecordedDisk (DirName DIR_SEP path) w1)
      as [[] w2]; cbn [fst snd negb] in *.
    + destruct (MakeDir_new_diagnostics E (DirName DIR_SEP path) w2)
        as (l3 & Hc3 & Hlen3).
      destruct (@RealDiskInterface.MakeDir _ (SpiedEnv E)
                  (DirName DIR_SEP path) w2) as [ok w3].
      cbn [fst snd] in *.
      exists (l1 ++ l2 ++ l3)%list.
      rewrite Hc3, Hc2, Hc1, <- !app_assoc, !diagnostics_app, Hquiet,
        (Hok2 eq_refl).
      cbn [app]. split; [reflexivity|]. split.
      * destruct ok; lia.
      * intros ->. now apply length_zero_iff_nil.
    + exists (l1 ++ l2)%list.
      rewrite Hc2, Hc1, <- !app_assoc, !diagnostics_app, Hquiet.
      cbn [app]. split; [reflexivity|]. split; [assumption | discriminate].
Qed.

End MakeDirsOnRealDisk.

(** X7. [RealDiskInterface::MakeDir] fails exactly when the directory
    shim returns a negative value, whatever the cause, and then hands
    exactly one message to [Error]; otherwise it succeeds and [Error] is
    not called. *)
Theorem X7_MakeDir_outcomes :
  forall (K : Type) (E : Env K) (path : string) (k k' : K) (ret : Z),
    util_MakeDir path k = (ret, k') ->
    let result := @RealDiskInterface.MakeDir _ (SpiedEnv E) path (spy_on k) in
    let complaint :=
      {| format := "mkdir(%s): %s";
         args := [ArgStr path; ArgStr (strerror (errno k'))] |} in
    ((ret < 0)%Z ->
     result = (false, {| inner := Error complaint k';
                         calls := [EvMakeDir path; EvError complaint] |})) /\
    ((0 <= ret)%Z ->
     result = (true, {| inner := k'; calls := [EvMakeDir path] |})).
Proof.
  intros K E path k k' ret Hmk result complaint.
  unfold result, RealDiskInterface.MakeDir.
  cbn [util_MakeDir SpiedEnv spy_on inner]. rewrite Hmk.
  destruct (ret <? 0)%Z eqn:Hneg;
    [apply Z.ltb_lt in Hneg | apply Z.ltb_ge in Hneg];
    split; intros; (lia || reflexivity).
Qed.

Lemma X7_witness_directory_exists :
  @RealDiskInterface.MakeDir _ (SpiedEnv (Scripted epoch_file)) "out" (spy_on tt) =
  (false,
   {| inner := tt;
      calls := [EvMakeDir "out";
                EvError {| format := "mkdir(%s): %s";
                           args := [ArgStr "out"; ArgStr "File exists"] |}] |}).
Proof.
  apply (proj1 (X7_MakeDir_outcomes unit (Scripted epoch_file) "out" tt tt (-1)
                  eq_refl)).
  lia.
Defined.

(** X8. On either platform and for every path, [Stat] hands at most one
    message to [Error], and it does so only when it returns -1: a zero
    or positive result never comes with a diagnostic. *)
Theorem X8_Stat_diagnostic_only_with_error :
  forall (K : Type) (E : Env K) (platform : Platform) (path : string) (k : K),
    List.length
      (diagnostics
         (calls (snd (@RealDiskInterface.Stat _ (SpiedEnv E) platform path
                        (spy_on k))))) <= 1 /\
    (diagnostics
       (calls (snd (@RealDiskInterface.Stat _ (SpiedEnv E) platform path
                      (spy_on k)))) <> [] ->
     fst (@RealDiskInterface.Stat _ (SpiedEnv E) platform path (spy_on k)) =
     (-1)%Z).
Proof.
  intros K E platform path k.
  destruct (Stat_new_diagnostics E platform path (spy_on k))
    as (l & Hcalls & Hlen & Hneg).
  rewrite Hcalls. simpl. split; assumption.
Qed.

(** X9. When [stat] fails with a code other than [ENOENT], [Stat]
    returns -1 and hands [Error] exactly one message, which carries the
    path and the text of that code. *)
Theorem X9_Stat_posix_other_failure :
  forall (K : Type) (E : Env K) (path : string) (k k' : K)
         (ret : Z) (st : struct_stat),
    stat path k = ((ret, st), k') ->
    (ret < 0)%Z ->
    errno k' <> ENOENT ->
    let complaint :=
      {| format := "stat(%s): %s";
         args := [ArgStr path; ArgStr (strerror (errno k'))] |} in
    @RealDiskInterface.Stat _ (SpiedEnv E) Posix path (spy_on k) =
    ((-1)%Z, {| inner := Error complaint k';
                calls := [EvStat path; EvError complaint] |}).
Proof.
  intros K E path k k' ret st Hstat Hret Herrno complaint.
  unfold RealDiskInterface.Stat, RealDiskInterface.Stat_posix.
  cbn [stat SpiedEnv spy_on inner]. rewrite Hstat.
  apply Z.ltb_lt in Hret. rewrite Hret.
  unfold record_call. cbn [errno SpiedEnv inner calls].
  apply Z.eqb_neq in Herrno. rewrite Herrno. reflexivity.
Qed.

(** [stat] is refused for a reason other than absence. *)
Definition unreadable : Script := {|
  on_errno := 13;
  on_stat := ((-1)%Z, {| st_mtime := 0 |});
  on_fopen := None;
  on_fwrite := 0%N;
  on_fclose := EOF;
  on_remove := (-1)%Z;
  on_GetFileAttributesEx :=
    (false, {| ftLastWriteTime := {| dwLowDateTime := 0; dwHighDateTime := 0 |} |});
  on_GetLastError := 5;
  on_MakeDir := (-1)%Z;
  on_ReadFile := ReadFailure 13 "Permission denied"
|}.

Lemma X9_witness_permission_denied :
  @RealDiskInterface.Stat _ (SpiedEnv (Scripted unreadable)) Posix
    "secret" (spy_on tt) =
  ((-1)%Z,
   {| inner := tt;
      calls := [EvStat "secret";
                EvError {| format := "stat(%s): %s";
                           args := [ArgStr "secret";
                                    ArgStr "Permission denied"] |}] |}).
Proof.
  apply (X9_Stat_posix_other_failure unit (Scripted unreadable)
           "secret" tt tt (-1) {| st_mtime := 0 |} eq_refl).
  - lia.
  - discriminate.
Defined.

Lemma too_long_within_limit (path : string) :
  path = "" \/ get 0 path = Some backslash \/
  (Z.of_nat (String.length path) <= MAX_PATH)%Z ->
  RealDiskInterface.too_long path = false.
Proof.
  unfold RealDiskInterface.too_long.
  intros [-> | [Hfirst | Hlen]].
  - reflexivity.
  - rewrite Hfirst, Ascii.eqb_refl. cbn [negb]. now rewrite andb_false_r.
  - rewrite Z.gtb_ltb. apply Z.ltb_ge in Hlen. rewrite Hlen.
    now rewrite andb_false_r.
Qed.

(** X10. Where the path-length limit is enforced, a path that is empty,
    begins with a backslash, or has at most [MAX_PATH] characters always
    reaches [GetFileAttributesEx]. When that call succeeds [Stat]
    returns the converted last-write time and [Error] is not called;
    when it fails with a code other than the two not-found codes, [Stat]
    returns -1 after exactly one message to [Error], which carries the
    text of the last error. *)
Theorem X10_Stat_win32_within_limit :
  forall (K : Type) (E : Env K) (path : string) (k k1 : K)
         (ok : bool) (attrs : WIN32_FILE_ATTRIBUTE_DATA),
    path = "" \/ get 0 path = Some backslash \/
    (Z.of_nat (String.length path) <= MAX_PATH)%Z ->
    GetFileAttributesEx path (printf (stat_trace_line path) k) =
    ((ok, attrs), k1) ->
    let result :=
      @RealDiskInterface.Stat _ (SpiedEnv E) Win32 path (spy_on k) in
    let complaint :=
      {| format := "GetFileAttributesEx(%s): %s";
         args := [ArgStr path; ArgStr (fst (GetLastErrorString k1))] |} in
    (ok = true ->
     result =
     (FiletimeToTimestamp (ftLastWriteTime attrs),
      {| inner := k1;
         calls := [EvPrintf (stat_trace_line path);
                   EvGetFileAttributesEx path] |})) /\
    (ok = false ->
     GetLastError k1 <> ERROR_FILE_NOT_FOUND ->
     GetLastError k1 <> ERROR_PATH_NOT_FOUND ->
     result =
     ((-1)%Z,
      {| inner := Error complaint (snd (GetLastErrorString k1));
         calls := [EvPrintf (stat_trace_line path);
                   EvGetFileAttributesEx path;
                   EvGetLastErrorString;
                   EvError complaint] |})).
Proof.
  intros K E path k k1 ok attrs Hshort Hcall result complaint.
  unfold result, RealDiskInterface.Stat, RealDiskInterface.Stat_win32.
  rewrite (too_long_within_limit path Hshort). fold (stat_trace_line path).
  cbn [printf GetFileAttributesEx SpiedEnv spy_on record_call inner calls].
  rewrite Hcall.
  split.
  - intros ->. reflexivity.
  - intros -> Hfile Hpath. unfold record_call.
    cbn [negb GetLastError SpiedEnv inner calls].
    apply Z.eqb_neq in Hfile, Hpath. rewrite Hfile, Hpath. cbn [orb].
    cbn [GetLastErrorString SpiedEnv inner calls].
    unfold complaint. destruct (GetLastErrorString k1) as [text k2].
    reflexivity.
Qed.

Lemma X10_witness_escaped_long_path :
  @RealDiskInterface.Stat _ (SpiedEnv (Scripted all_fine)) Win32
    (String backslash overlong_path) (spy_on tt) =
  (1000%Z,
   {| inner := tt;
      calls := [EvPrintf (stat_trace_line (String backslash overlong_path));
                EvGetFileAttributesEx (String backslash overlong_path)] |}).
Proof.
  apply (proj1 (X10_Stat_win32_within_limit unit (Scripted all_fine)
                  (String backslash overlong_path) tt tt true
                  (snd (on_GetFileAttributesEx all_fine))
                  (or_intror (or_introl eq_refl)) eq_refl)).
  reflexivity.
Defined.

(** X11. [MakeDirs] running on [RealDiskInterface], on either platform:
    at most one message reaches [Error] during the whole call, however
    deep the recursion goes, and none at all when it returns success. *)
Theorem X11_MakeDirs_RealDisk_diagnostics :
  forall (DIR_SEP : string) (K : Type) (E : Env K) (platform : Platform)
         (path : string) (k : K),
    List.length
      (diagnostics
         (calls (snd (@MakeDirs DIR_SEP _ (@RealDisk _ (SpiedEnv E) platform)
                        path (spy_on k))))) <= 1 /\
    (fst (@MakeDirs DIR_SEP _ (@RealDisk _ (SpiedEnv E) platform)
            path (spy_on k)) = true ->
     diagnostics
       (calls (snd (@MakeDirs DIR_SEP _ (@RealDisk _ (SpiedEnv E) platform)
                      path (spy_on k)))) = []).
Proof.
  intros DIR_SEP K E platform path k.
  destruct (MakeDirs_RealDisk_new_diagnostics DIR_SEP E platform path (spy_on k))
    as (l & Hcalls & Hlen & Hquiet).
  rewrite Hcalls. simpl. split; assumption.
Qed.

(** X12. For empty content the count [fwrite] returns does not matter:
    once [fopen] has succeeded, [WriteFile] always goes on to [fclose],
    and it succeeds exactly when [fclose] does not return [EOF]. *)
Theorem X12_WriteFile_empty_content :
  forall (K : Type) (E : Env K) (path : string) (k k1 : K) (fp : FILE),
    fopen path "w" k = (Some fp, k1) ->
    let wrote := fwrite "" 1 0 fp k1 in
    let closed := fclose fp (snd wrote) in
    let result :=
      @RealDiskInterface.WriteFile _ (SpiedEnv E) path "" (spy_on k) in
    fst result = negb (fst closed =? EOF)%Z /\
    exists rest,
      calls (snd result) =
      (EvFopen path "w" :: EvFwrite "" 1 0 fp :: EvFclose fp :: rest)%list.
Proof.
  intros K E path k k1 fp Hopen wrote closed result.
  unfold result, RealDiskInterface.WriteFile.
  cbn [fopen SpiedEnv spy_on inner]. rewrite Hopen.
  spy_step. cbn [String.length N.of_nat].
  unfold closed, wrote.
  destruct (fwrite "" 1 0 fp k1) as [written k2].
  destruct (written <? 0)%N eqn:Hshort; [apply N.ltb_lt in Hshort; lia|].
  spy_step. cbn [snd].
  destruct (fclose fp k2) as [ret k3]. cbn [fst].
  destruct (ret =? EOF)%Z; spy_step; cbn [fst snd negb calls app];
    (split; [reflexivity | eexists; reflexivity]).
Qed.

Lemma X12_witness_empty_file :
  fst (@RealDiskInterface.WriteFile _ (SpiedEnv (Scripted all_fine))
         "empty.txt" "" (spy_on tt)) = true.
Proof.
  exact (proj1 (X12_WriteFile_empty_content unit (Scripted all_fine)
                  "empty.txt" tt tt 3%N eq_refl)).
Defined.

(** X13. [ReadFile] makes one call, to the read shim, and never calls
    [Error]. With the shim read as the specification describes it, the
    content it delivers is returned with the error output left as the
    caller passed it, and a failure other than [ENOENT] returns empty
    content with the shim's text in the error output. *)
Theorem X13_ReadFile_hands_back_outcome :
  forall (K : Type) (E : Env K) (path err : string) (binary : bool) (k k' : K),
    (forall contents,
       util_ReadFile path binary k = (ReadContent contents, k') ->
       @RealDiskInterface.ReadFile _ (SpiedEnv E) path err binary (spy_on k) =
       ((contents, err), {| inner := k'; calls := [EvReadFile path binary] |})) /\
    (forall code text,
       util_ReadFile path binary k = (ReadFailure code text, k') ->
       code <> ENOENT ->
       @RealDiskInterface.ReadFile _ (SpiedEnv E) path err binary (spy_on k) =
       (("", text), {| inner := k'; calls := [EvReadFile path binary] |})).
Proof.
  intros K E path err binary k k'.
  unfold RealDiskInterface.ReadFile, RealDiskInterface.call_ReadFile.
  cbn [util_ReadFile SpiedEnv spy_on inner].
  split.
  - intros contents ->. reflexivity.
  - intros code text -> Hcode.
    cbv zeta. cbv iota beta.
    assert ((- code =? - ENOENT)%Z = false) as Hne by (apply Z.eqb_neq; lia).
    rewrite Hne. reflexivity.
Qed.

Lemma X13_witness_content_and_refusal :
  fst (@RealDiskInterface.ReadFile _ (SpiedEnv (Scripted all_fine))
         "notes.txt" "" false (spy_on tt)) = ("hello", "") /\
  fst (@RealDiskInterface.ReadFile _ (SpiedEnv (Scripted permission_denied))
         "secret.txt" "" false (spy_on tt)) = ("", "Permission denied").
Proof.
  split.
  - rewrite (proj1 (X13_ReadFile_hands_back_outcome unit (Scripted all_fine)
                      "notes.txt" "" false tt tt) "hello" eq_refl).
    reflexivity.
  - rewrite (proj2 (X13_ReadFile_hands_back_outcome unit
                      (Scripted permission_denied)
                      "secret.txt" "" false tt tt)
                   13%Z "Permission denied" eq_refl ltac:(discriminate)).
    reflexivity.
Defined.

(** ** [MakeDirs] over [RealDiskInterface] on an empty tree *)


Section FreshTree.

Variable DIR_SEP : string.
Context {K : Type} (E : Env K).




End FreshTree.


